(** * Schedule bot: parser, teacher queries and change monitor

    A shallow embedding of [schedule_bot.py] (and of the places where
    [schedule_bot_backup.py] differs): the timetable parser [get_schedule],
    the teacher queries [get_all_teachers], [search_teachers] and
    [find_teacher_schedule], and one pass of the loop of [monitor_schedule].

    Python values are embedded as follows.
    - [str]: a list of Unicode code points ([pystr]); [len] counts code points.
    - [dict]: an association list in insertion order ([dict]); a key occurs
      once, and assigning to a key that is present keeps its position.
    - [set]: the list of its elements in iteration order; that order is
      fixed by the hash layout, which the embedding takes as an interface
      ([SetLayout]).
    - [None] and raised exceptions: [option] and the type [exn].
    The Unicode tables behind [str.lower], [str.isdigit], [str.isalpha] and
    [str.strip], the HTML parser and the digest are library code; they are
    interfaces ([Unicode], [HtmlParser], [Digest]) with one instance each
    for the worked examples.

    Left out: what is printed or logged, the cache [available_groups], the
    counters [notified_count] and [notified_groups], the text that
    [format_schedule] builds for a message, and the sleep between passes.
    None of them feeds back into the values modelled here. *)

From Stdlib Require Import String Ascii.
From Stdlib Require Import ZArith List Bool Lia Permutation.
From Stdlib Require Import Sorting.Sorted.
From Stdlib Require Import DecimalString.
Import ListNotations.
Local Open Scope Z_scope.

(* ================================================================== *)
(** * Python strings *)

Definition pystr := list Z.

(** Code points of a UTF-8 encoded literal, so that the examples can be
    written as text. [need] is the number of continuation bytes still
    expected and [acc] the bits read so far. *)
Fixpoint utf8_go (bs : list Z) (need : nat) (acc : Z) : pystr :=
  match bs with
  | [] => []
  | b :: bs' =>
      match need with
      | O =>
          if b <? 128 then b :: utf8_go bs' 0 0
          else if b <? 224 then utf8_go bs' 1 (b - 192)
          else if b <? 240 then utf8_go bs' 2 (b - 224)
          else utf8_go bs' 3 (b - 240)
      | S k =>
          let acc' := acc * 64 + (b - 128) in
          match k with
          | O => acc' :: utf8_go bs' 0 0
          | S _ => utf8_go bs' k acc'
          end
      end
  end.

Definition bytes_of (s : string) : list Z :=
  map (fun a => Z.of_N (N_of_ascii a)) (list_ascii_of_string s).

Definition u (s : string) : pystr := utf8_go (bytes_of s) 0 0.

Definition len (s : pystr) : Z := Z.of_nat (length s).

(** Truth value of a string or of a list: non-empty. *)
Definition truthy {A : Type} (l : list A) : bool :=
  match l with [] => false | _ :: _ => true end.

Fixpoint str_eqb (a b : pystr) : bool :=
  match a, b with
  | [], [] => true
  | x :: a', y :: b' => (x =? y) && str_eqb a' b'
  | _, _ => false
  end.

(** [startswith needle s]: [s.startswith(needle)]. *)
Fixpoint startswith (needle s : pystr) : bool :=
  match needle, s with
  | [], _ => true
  | _ :: _, [] => false
  | x :: needle', y :: s' => (x =? y) && startswith needle' s'
  end.

(** [str_in needle s]: the expression [needle in s]. *)
Fixpoint str_in (needle s : pystr) : bool :=
  startswith needle s ||
  match s with
  | [] => false
  | _ :: s' => str_in needle s'
  end.

(** [str_remove needle s]: [s.replace(needle, '')] for a non-empty
    [needle]: every occurrence found scanning from the left is deleted.
    [skip] counts the code points of the current occurrence still to drop. *)
Fixpoint str_remove_from (needle s : pystr) (skip : nat) : pystr :=
  match s with
  | [] => []
  | c :: s' =>
      match skip with
      | S k => str_remove_from needle s' k
      | O =>
          if startswith needle s
          then str_remove_from needle s' (length needle - 1)
          else c :: str_remove_from needle s' 0
      end
  end.

Definition str_remove (needle s : pystr) : pystr :=
  match needle with
  | [] => s
  | _ :: _ => str_remove_from needle s 0
  end.

(** [split_on sep s]: [s.split(sep)] for a one-character separator. *)
Fixpoint split_on (sep : Z) (s : pystr) : list pystr :=
  match s with
  | [] => [[]]
  | c :: s' =>
      if c =? sep then [] :: split_on sep s'
      else
        match split_on sep s' with
        | [] => [[c]]
        | line :: lines => (c :: line) :: lines
        end
  end.

(** Order of [str]: lexicographic on code points. *)
Fixpoint str_leb (a b : pystr) : bool :=
  match a, b with
  | [], _ => true
  | _ :: _, [] => false
  | x :: a', y :: b' =>
      if x <? y then true else if x =? y then str_leb a' b' else false
  end.

Definition str_le (a b : pystr) : Prop := str_leb a b = true.

(** [sorted(l)] on strings. *)
Fixpoint insert_sorted (x : pystr) (l : list pystr) : list pystr :=
  match l with
  | [] => [x]
  | y :: l' => if str_leb x y then x :: l else y :: insert_sorted x l'
  end.

Definition sorted (l : list pystr) : list pystr :=
  fold_right insert_sorted [] l.

(** The Unicode tables used by the program. *)
Class Unicode := {
  lower : pystr -> pystr;      (* str.lower() *)
  isdigit : Z -> bool;         (* c.isdigit() *)
  isalpha : Z -> bool;         (* c.isalpha() *)
  isspace : Z -> bool          (* the characters str.strip() removes *)
}.

Section Strip.
Context {U : Unicode}.

Fixpoint lstrip (s : pystr) : pystr :=
  match s with
  | [] => []
  | c :: s' => if isspace c then lstrip s' else s
  end.

Definition rstrip (s : pystr) : pystr := rev (lstrip (rev s)).

(** [s.strip()] *)
Definition strip (s : pystr) : pystr := rstrip (lstrip s).

End Strip.

(** The tables restricted to Basic Latin and to the Cyrillic block
    U+0400..U+045F, the alphabet of the timetable. *)
Definition lower_cp (c : Z) : Z :=
  if (65 <=? c) && (c <=? 90) then c + 32
  else if (1040 <=? c) && (c <=? 1071) then c + 32
  else if (1024 <=? c) && (c <=? 1039) then c + 80
  else c.

Definition isdigit_cp (c : Z) : bool := (48 <=? c) && (c <=? 57).

Definition isalpha_cp (c : Z) : bool :=
  ((65 <=? c) && (c <=? 90)) || ((97 <=? c) && (c <=? 122))
  || ((1024 <=? c) && (c <=? 1119)).

Definition isspace_cp (c : Z) : bool :=
  ((9 <=? c) && (c <=? 13)) || ((28 <=? c) && (c <=? 32))
  || (c =? 133) || (c =? 160).

Definition basic_unicode : Unicode := {|
  lower := map lower_cp;
  isdigit := isdigit_cp;
  isalpha := isalpha_cp;
  isspace := isspace_cp
|}.

(* ================================================================== *)
(** * Python dictionaries *)

Definition dict (V : Type) := list (pystr * V).

Section Dict.
Context {V : Type}.

(** [d.get(k)] *)
Fixpoint dict_get (k : pystr) (d : dict V) : option V :=
  match d with
  | [] => None
  | (k', v) :: d' => if str_eqb k k' then Some v else dict_get k d'
  end.

(** [k in d] *)
Definition dict_mem (k : pystr) (d : dict V) : bool :=
  match dict_get k d with Some _ => true | None => false end.

(** [d[k] = v] *)
Fixpoint dict_set (k : pystr) (v : V) (d : dict V) : dict V :=
  match d with
  | [] => [(k, v)]
  | (k', v') :: d' =>
      if str_eqb k k' then (k', v) :: d' else (k', v') :: dict_set k v d'
  end.

Definition keys (d : dict V) : list pystr := map fst d.

End Dict.

(** The keys of a literal dict are pairwise different. *)
Fixpoint distinct (l : list pystr) : bool :=
  match l with
  | [] => true
  | x :: l' => negb (existsb (str_eqb x) l') && distinct l'
  end.

(* ================================================================== *)
(** * Data model *)

(** One lesson: the dict with the keys ['pair_number'], ['subject'] and
    ['teacher'] that [get_schedule] appends. *)
Record ClassEntry := {
  pair_number : pystr;
  subject : pystr;
  teacher : pystr
}.

(** A group's lessons in document order. *)
Abbreviation GroupSchedule := (list ClassEntry).

(** The dict a caller holds as [schedule_data]: each of the keys ['date']
    and ['groups'] may be missing; [get_schedule] sets both. *)
Record ScheduleData := {
  date : option pystr;
  groups : option (dict GroupSchedule)
}.

(** [bool(schedule_data)] for a dict: it has a key. *)
Definition has_keys (sd : ScheduleData) : bool :=
  match date sd, groups sd with
  | None, None => false
  | _, _ => true
  end.

(* ================================================================== *)
(** * Query layer *)

(** Iteration order of a [set]. [set_iter l] lists the set whose distinct
    elements were added in the order [l]. *)
Class SetLayout := {
  set_iter : list pystr -> list pystr;
  set_iter_perm : forall l, Permutation (set_iter l) l
}.

(** [s.add(x)] on the elements in order of first insertion. *)
Definition set_add (x : pystr) (s : list pystr) : list pystr :=
  if existsb (str_eqb x) s then s else s ++ [x].

Section Query.
Context {U : Unicode} {L : SetLayout}.

(** The loops of [get_all_teachers] over the groups and their pairs. *)
Definition add_teachers (pairs : GroupSchedule) (teachers : list pystr)
  : list pystr :=
  fold_left
    (fun acc pair => if truthy (teacher pair) then set_add (teacher pair) acc
                     else acc)
    pairs teachers.

Definition teachers_inserted (gs : dict GroupSchedule) : list pystr :=
  fold_left (fun acc item => add_teachers (snd item) acc) gs [].

(** [get_all_teachers]: the returned set, as [for t in all_teachers]
    visits it. *)
Definition get_all_teachers (schedule_data : option ScheduleData)
  : list pystr :=
  match schedule_data with
  | None => []
  | Some sd =>
      if negb (has_keys sd) then []
      else
        match groups sd with
        | None => []
        | Some gs => set_iter (teachers_inserted gs)
        end
  end.

Definition search_teachers (query : pystr)
  (schedule_data : option ScheduleData) : list pystr :=
  let all_teachers := get_all_teachers schedule_data in
  let query_lower := lower query in
  let exact_matches :=
    filter (fun t => str_eqb (lower t) query_lower) all_teachers in
  if truthy exact_matches then exact_matches
  else
    let matches :=
      filter (fun t => str_in query_lower (lower t)) all_teachers in
    sorted matches.

(** The test on one pair in [find_teacher_schedule] of [schedule_bot.py]. *)
Definition teacher_matches (teacher_lower : pystr) (pair : ClassEntry)
  : bool :=
  truthy (teacher pair)
  && (str_eqb teacher_lower (lower (teacher pair))
      || str_in teacher_lower (lower (teacher pair))).

(** The same test in [schedule_bot_backup.py]. *)
Definition teacher_matches_backup (teacher_lower : pystr)
  (pair : ClassEntry) : bool :=
  truthy (teacher pair) && str_in teacher_lower (lower (teacher pair)).

Definition find_in_groups (matches : pystr -> ClassEntry -> bool)
  (teacher_name : pystr) (gs : dict GroupSchedule) : dict GroupSchedule :=
  let teacher_lower := lower teacher_name in
  fold_left
    (fun result item =>
       let matching_pairs := filter (matches teacher_lower) (snd item) in
       if truthy matching_pairs
       then dict_set (fst item) matching_pairs result
       else result)
    gs [].

Definition find_teacher_schedule_with
  (matches : pystr -> ClassEntry -> bool) (teacher_name : pystr)
  (schedule_data : option ScheduleData) : dict GroupSchedule :=
  match schedule_data with
  | None => []
  | Some sd =>
      if negb (has_keys sd) then []
      else
        match groups sd with
        | None => []
        | Some gs => find_in_groups matches teacher_name gs
        end
  end.

Definition find_teacher_schedule :=
  find_teacher_schedule_with teacher_matches.

Definition find_teacher_schedule_backup :=
  find_teacher_schedule_with teacher_matches_backup.

(** The match the specification words describe: equal, or either string
    contained in the other, compared in lower case. *)
Definition symmetric_match (teacher_lower : pystr) (pair : ClassEntry)
  : bool :=
  str_eqb (lower (teacher pair)) teacher_lower
  || str_in teacher_lower (lower (teacher pair))
  || str_in (lower (teacher pair)) teacher_lower.

(** A group's entry in the result of [find_teacher_schedule]: its
    matching pairs, or no key. *)
Definition matching_or_absent (matches : ClassEntry -> bool)
  (pairs : option GroupSchedule) : option GroupSchedule :=
  match pairs with
  | None => None
  | Some ps =>
      match filter matches ps with
      | [] => None
      | m => Some m
      end
  end.

End Query.

(* ================================================================== *)
(** * Table parser *)

(** What [get_schedule] reads off the parsed page. Each record holds the
    results of the BeautifulSoup calls made on that element. *)

(** The cell found by [inner_table.find('td', style=...'overflow'...)]:
    its [get_text(separator=' ', strip=True)] and the
    [get_text(strip=True)] of its first [small], if any. *)
Record ContentTd := {
  td_text : pystr;
  td_small : option pystr
}.

(** A nested table: the text of its first [th] and its content cell. *)
Record InnerTable := {
  it_th : option pystr;
  it_content : option ContentTd
}.

(** A cell of a content row: [big_cell.find_all('table', recursive=True)]. *)
Definition BigCell := list InnerTable.

(** A row of [table.find_all('tr')]: the [get_text(strip=True)] of each
    element of [row.find_all('th')], and [row.find_all('td',
    recursive=False)]. *)
Record Tr := {
  tr_ths : list pystr;
  tr_tds : list BigCell
}.

(** The page: [get_text()] of the [div] with [width:980px] in its style,
    and the rows of the [table] of class [border]. *)
Record Soup := {
  soup_date_div : option pystr;
  soup_table : option (list Tr)
}.

(** [BeautifulSoup(text, 'html.parser')] *)
Class HtmlParser := {
  BeautifulSoup : pystr -> Soup
}.

(** Outcome of [requests.get]: an exception, or a response with its text. *)
Inductive Fetched :=
| FetchFailed
| Response (text : pystr).

Definition months : list pystr :=
  [u "ноября"; u "декабря"; u "января"; u "февраля"; u "марта"].

Definition date_unspecified : pystr := u "Дата не указана".

Definition no_class_marker : pystr := u "нет".

Section Parser.
Context {U : Unicode} {H : HtmlParser}.

Definition has_month (line : pystr) : bool :=
  existsb (fun month => str_in month (lower line)) months.

(** The loop over [date_text.split('\n')] with its [break]. *)
Fixpoint first_date_line (lines : list pystr) : option pystr :=
  match lines with
  | [] => None
  | line :: rest =>
      if has_month line then Some (strip line) else first_date_line rest
  end.

Definition parse_date (soup : Soup) : pystr :=
  match soup_date_div soup with
  | None => date_unspecified
  | Some date_text =>
      match first_date_line (split_on 10 date_text) with
      | Some d => d
      | None => date_unspecified
      end
  end.

(** The test on a header cell's text. *)
Definition is_group_name (group_name : pystr) : bool :=
  truthy group_name
  && ((3 <=? len group_name) && (len group_name <=? 15))
  && (existsb isdigit group_name && existsb isalpha group_name).

Definition groups_in_block (row : Tr) : list pystr :=
  filter is_group_name (tr_ths row).

(** [teacher] and [subject] of a content cell. *)
Definition cell_teacher (c : ContentTd) : pystr :=
  match td_small c with
  | Some t => t
  | None => []
  end.

Definition cell_subject (c : ContentTd) : pystr :=
  if truthy (cell_teacher c)
  then strip (str_remove (cell_teacher c) (td_text c))
  else td_text c.

(** The test before [continue]. *)
Definition is_placeholder (subject : pystr) : bool :=
  str_in no_class_marker (lower subject) && (len subject <? 15).

(** The body of the loop over the nested tables: the entry appended, if
    any. *)
Definition lesson_entry (inner_table : InnerTable) : option ClassEntry :=
  let pair_number :=
    match it_th inner_table with
    | Some t => t
    | None => u "?"
    end in
  match it_content inner_table with
  | None => None
  | Some content_td =>
      let subject := cell_subject content_td in
      if is_placeholder subject then None
      else Some {| pair_number := pair_number;
                   subject := subject;
                   teacher := cell_teacher content_td |}
  end.

(** [schedule_by_group[k].append(e)]. The key is always present where
    the parser appends: the block's names are registered first. *)
Fixpoint dict_append (k : pystr) (e : ClassEntry) (d : dict GroupSchedule)
  : dict GroupSchedule :=
  match d with
  | [] => []
  | (k', v) :: d' =>
      if str_eqb k k' then (k', v ++ [e]) :: d'
      else (k', v) :: dict_append k e d'
  end.

(** The loop registering the names of a block. *)
Definition register_groups (names : list pystr) (d : dict GroupSchedule)
  : dict GroupSchedule :=
  fold_left (fun d g => if dict_mem g d then d else dict_set g [] d) names d.

Definition fill_cell (group_name : pystr) (big_cell : BigCell)
  (d : dict GroupSchedule) : dict GroupSchedule :=
  fold_left
    (fun d inner_table =>
       match lesson_entry inner_table with
       | Some e => dict_append group_name e d
       | None => d
       end)
    big_cell d.

(** The loop over [enumerate(schedule_cells)]: it stops at the first
    column without a group name. *)
Fixpoint fill_cells (names : list pystr) (schedule_cells : list BigCell)
  (d : dict GroupSchedule) : dict GroupSchedule :=
  match schedule_cells, names with
  | big_cell :: cells', group_name :: names' =>
      fill_cells names' cells' (fill_cell group_name big_cell d)
  | _, _ => d
  end.

(** The [while i < len(rows)] loop; [rows] is [rows[i:]]. A block header
    consumes the row after it, when there is one. *)
Fixpoint parse_rows (rows : list Tr) (schedule_by_group : dict GroupSchedule)
  : dict GroupSchedule :=
  match rows with
  | [] => schedule_by_group
  | row :: rest =>
      if truthy (tr_ths row) then
        let names := groups_in_block row in
        if truthy names then
          let registered := register_groups names schedule_by_group in
          match rest with
          | schedule_row :: rest' =>
              parse_rows rest' (fill_cells names (tr_tds schedule_row) registered)
          | [] => registered
          end
        else parse_rows rest schedule_by_group
      else parse_rows rest schedule_by_group
  end.

(** [if group_filter:] *)
Definition filter_given (group_filter : option pystr) : option pystr :=
  match group_filter with
  | Some g => if truthy g then Some g else None
  | None => None
  end.

(** [get_schedule(group_filter)] on the outcome of its request; [None] is
    the value it returns when no schedule is available. *)
Definition get_schedule (fetched : Fetched) (group_filter : option pystr)
  : option ScheduleData :=
  match fetched with
  | FetchFailed => None
  | Response text =>
      if negb (truthy text) || str_eqb (strip text) [] then None
      else
        let soup := BeautifulSoup text in
        let schedule_date := parse_date soup in
        match soup_table soup with
        | None => None
        | Some rows =>
            let schedule_by_group := parse_rows rows [] in
            match filter_given group_filter with
            | Some g =>
                match dict_get g schedule_by_group with
                | Some entries =>
                    Some {| date := Some schedule_date;
                            groups := Some [(g, entries)] |}
                | None => None
                end
            | None =>
                Some {| date := Some schedule_date;
                        groups := Some schedule_by_group |}
            end
        end
  end.

(** The entries a cell contributes, in document order. *)
Definition cell_entries (big_cell : BigCell) : GroupSchedule :=
  flat_map
    (fun inner_table =>
       match lesson_entry inner_table with
       | Some e => [e]
       | None => []
       end)
    big_cell.

(** The entries one block contributes to group [g]: those of the cells
    in the columns headed [g], left to right. *)
Fixpoint block_entries (g : pystr) (names : list pystr)
  (schedule_cells : list BigCell) : GroupSchedule :=
  match schedule_cells, names with
  | big_cell :: cells', group_name :: names' =>
      (if str_eqb g group_name then cell_entries big_cell else [])
      ++ block_entries g names' cells'
  | _, _ => []
  end.

End Parser.

(* ================================================================== *)
(** * Change monitor *)

(** [hashlib.sha256(str(group_schedule).encode()).hexdigest()] *)
Class Digest := {
  group_hash : GroupSchedule -> pystr
}.

(** An element of the list [get_all_subscribers] returns: the integer
    [row[0]] in [schedule_bot.py]; a [sqlite3.Row] with the column
    ['user_id'] in [schedule_bot_backup.py]. *)
Inductive Subscriber :=
| PyInt (n : Z)
| PyRow (row_user_id : Z).

Inductive exn :=
| TypeError           (* 'int' object is not subscriptable *)
| UnboundLocalError   (* a local name read before its first assignment *)
| DeliveryFailed.     (* raised by [app.bot.send_message] *)

(** The collaborators of one pass: the [user_id] column of the selected
    rows, [get_user_all_groups], and whether [send_message] raises for a
    chat and the group whose schedule the text shows. *)
Record World := {
  subscriptions : list Z;
  user_all_groups : Z -> list pystr;
  send_fails : Z -> pystr -> bool
}.

(** One call of [send_message]: chat, group and whether it returned. *)
Record Attempt := {
  att_chat : Z;
  att_group : pystr;
  att_ok : bool
}.

(** What the coroutine keeps between passes: [previous_hashes], the
    local name [user_id] ([None] until its first assignment) and the
    calls of [send_message] made so far. *)
Record MonitorState := {
  previous_hashes : dict pystr;
  user_id : option Z;
  sent : list Attempt
}.

Definition initial_state : MonitorState :=
  {| previous_hashes := []; user_id := None; sent := [] |}.

Definition get_all_subscribers (w : World) : list Subscriber :=
  map PyInt (subscriptions w).

Definition get_all_subscribers_backup (w : World) : list Subscriber :=
  map PyRow (subscriptions w).

(** [subscriber['user_id']] *)
Definition getitem_user_id (subscriber : Subscriber) : exn + Z :=
  match subscriber with
  | PyInt _ => inl TypeError
  | PyRow uid => inr uid
  end.

Section Monitor.
Context {U : Unicode} {H : HtmlParser} {D : Digest}.

(** The body of the loop over [schedule['groups'].items()]. *)
Definition diff_step (previous : dict pystr)
  (acc : dict pystr * list pystr) (item : pystr * GroupSchedule)
  : dict pystr * list pystr :=
  let group_name := fst item in
  let h := group_hash (snd item) in
  let current_hashes := dict_set group_name h (fst acc) in
  let changed_groups := snd acc in
  match dict_get group_name previous with
  | Some old =>
      if negb (str_eqb old h)
      then (current_hashes, changed_groups ++ [group_name])
      else (current_hashes, changed_groups)
  | None =>
      if truthy previous
      then (current_hashes, changed_groups ++ [group_name])
      else (current_hashes, changed_groups)
  end.

(** When the loop body appends [g], whose new schedule is [pairs]. *)
Definition is_changed (previous : dict pystr) (g : pystr)
  (pairs : GroupSchedule) : Prop :=
  (exists old, dict_get g previous = Some old /\ old <> group_hash pairs)
  \/ (dict_get g previous = None /\ previous <> []).

(** [(current_hashes, changed_groups)] after the loop. *)
Definition diff_groups (previous : dict pystr) (gs : dict GroupSchedule)
  : dict pystr * list pystr :=
  fold_left (diff_step previous) gs ([], []).

Definition changed_groups (previous : dict pystr) (gs : dict GroupSchedule)
  : list pystr :=
  snd (diff_groups previous gs).

(** The loop over [user_changed_groups] inside the [try]: it ends at the
    first [send_message] that raises. *)
Fixpoint send_groups (w : World) (gs : dict GroupSchedule) (uid : Z)
  (user_changed_groups : list pystr) (log : list Attempt)
  : list Attempt * option exn :=
  match user_changed_groups with
  | [] => (log, None)
  | user_group :: rest =>
      if dict_mem user_group gs then
        if send_fails w uid user_group
        then (log ++ [{| att_chat := uid; att_group := user_group;
                         att_ok := false |}],
              Some DeliveryFailed)
        else send_groups w gs uid rest
               (log ++ [{| att_chat := uid; att_group := user_group;
                           att_ok := true |}])
      else send_groups w gs uid rest log
  end.

(** The calls of [send_message] made for one subscriber whose [user_id]
    was read. *)
Definition subscriber_attempts (w : World) (gs : dict GroupSchedule)
  (changed : list pystr) (uid : Z) : list Attempt :=
  fst (send_groups w gs uid
         (filter (fun g => existsb (str_eqb g) changed)
            (user_all_groups w uid))
         []).

(** The [try] statement for one subscriber. The handler prints
    [user_id]: reading the name while it is unassigned raises inside the
    handler, and that exception leaves the loop. *)
Definition notify_subscriber (w : World) (gs : dict GroupSchedule)
  (changed : list pystr) (subscriber : Subscriber) (st : MonitorState)
  : MonitorState * option exn :=
  match getitem_user_id subscriber with
  | inl _ =>
      match user_id st with
      | None => (st, Some UnboundLocalError)
      | Some _ => (st, None)
      end
  | inr uid =>
      let user_groups := user_all_groups w uid in
      let user_changed_groups :=
        filter (fun g => existsb (str_eqb g) changed) user_groups in
      if negb (truthy user_changed_groups)
      then ({| previous_hashes := previous_hashes st;
               user_id := Some uid;
               sent := sent st |}, None)
      else
        (* a [send_message] that raises ends the inner loop; the handler
           prints [user_id], assigned above, and the exception is dropped *)
        match send_groups w gs uid user_changed_groups (sent st) with
        | (log, _) =>
            ({| previous_hashes := previous_hashes st;
                user_id := Some uid;
                sent := log |}, None)
        end
  end.

(** The loop over [subscribers]. *)
Fixpoint notify_all (w : World) (gs : dict GroupSchedule)
  (changed : list pystr) (subscribers : list Subscriber)
  (st : MonitorState) : MonitorState * option exn :=
  match subscribers with
  | [] => (st, None)
  | subscriber :: rest =>
      match notify_subscriber w gs changed subscriber st with
      | (st', None) => notify_all w gs changed rest st'
      | (st', Some e) => (st', Some e)
      end
  end.

(** One pass of the [while True] loop, up to [asyncio.sleep]. An
    exception that reaches the outer handler skips the assignment
    [previous_hashes = current_hashes]. *)
Definition monitor_pass (subscribers_of : World -> list Subscriber)
  (w : World) (fetched : Fetched) (st : MonitorState) : MonitorState :=
  match get_schedule fetched None with
  | None => st
  | Some schedule =>
      match groups schedule with
      | None => st
      | Some gs =>
          let (current_hashes, changed) :=
            diff_groups (previous_hashes st) gs in
          if truthy changed then
            match notify_all w gs changed (subscribers_of w) st with
            | (st', None) =>
                {| previous_hashes := current_hashes;
                   user_id := user_id st';
                   sent := sent st' |}
            | (st', Some _) => st'
            end
          else
            {| previous_hashes := current_hashes;
               user_id := user_id st;
               sent := sent st |}
      end
  end.

(** [monitor_schedule] of [schedule_bot.py], one pass. *)
Definition monitor_schedule := monitor_pass get_all_subscribers.

(** [monitor_schedule] of [schedule_bot_backup.py], one pass. *)
Definition monitor_schedule_backup := monitor_pass get_all_subscribers_backup.

(** Consecutive passes, each with the collaborators as they are then. *)
Definition run_monitor (ticks : list (World * Fetched)) (st : MonitorState)
  : MonitorState :=
  fold_left (fun st tick => monitor_schedule (fst tick) (snd tick) st)
    ticks st.

(** The pairs the specification words say must be attempted in a pass:
    every subscriber with each tracked group that changed. *)
Definition deliveries_due (w : World) (changed : list pystr)
  : list (Z * pystr) :=
  flat_map
    (fun uid =>
       map (fun g => (uid, g))
         (filter (fun g => existsb (str_eqb g) changed)
            (user_all_groups w uid)))
    (subscriptions w).

End Monitor.

(* ================================================================== *)
(** * Long messages *)

(** [str(n)] for a natural number. *)
Definition str_of_nat (n : nat) : pystr :=
  bytes_of (NilZero.string_of_uint (Nat.to_uint n)).

(** The body of the loop of [send_long_message] over the lines:
    [(parts, current_part)]. *)
Definition split_step (max_length : Z) (acc : list pystr * pystr)
  (line : pystr) : list pystr * pystr :=
  if max_length <? len (snd acc) + len line + 1
  then (fst acc ++ [snd acc], line ++ [10])
  else (fst acc, snd acc ++ line ++ [10]).

(** [parts] after the loop and the final [if current_part:]. *)
Definition message_parts (text : pystr) (max_length : Z) : list pystr :=
  let acc := fold_left (split_step max_length) (split_on 10 text) ([], []) in
  if truthy (snd acc) then fst acc ++ [snd acc] else fst acc.

(** The text put before part [i] when [i] is not 0. *)
Definition part_label (i : nat) : pystr :=
  u "_(часть " ++ str_of_nat (i + 1) ++ u ")_" ++ [10; 10].

(** The loop over [enumerate(parts)], from index [i]: the texts passed
    to [reply_text]. *)
Fixpoint label_parts (i : nat) (parts : list pystr) : list pystr :=
  match parts with
  | [] => []
  | part :: rest =>
      match i with
      | O => part
      | S _ => part_label i ++ part
      end :: label_parts (S i) rest
  end.

(** [send_long_message]: the texts of its calls of [reply_text], in
    order. *)
Definition send_long_message (text : pystr) (max_length : Z) : list pystr :=
  if len text <=? max_length then [text]
  else label_parts 0 (message_parts text max_length).

(* ================================================================== *)
(** * Group name validation *)

(** The class [[А-Яа-яA-Za-z0-9\-]] of the pattern. *)
Definition group_name_char (c : Z) : bool :=
  ((1040 <=? c) && (c <=? 1071)) || ((1072 <=? c) && (c <=? 1103))
  || ((65 <=? c) && (c <=? 90)) || ((97 <=? c) && (c <=? 122))
  || ((48 <=? c) && (c <=? 57)) || (c =? 45).

(** The characters after the longest run of class characters at the
    start of [s], and whether that run is non-empty. *)
Fixpoint after_class_run (s : pystr) : pystr :=
  match s with
  | [] => []
  | c :: s' => if group_name_char c then after_class_run s' else s
  end.

(** [re.match(r'^[А-Яа-яA-Za-z0-9\-]+$', s)] finds a match: a non-empty
    run of class characters reaches the end of [s], where [$] also
    accepts the position before a final newline. *)
Definition group_name_pattern (s : pystr) : bool :=
  match s with
  | [] => false
  | c :: _ =>
      group_name_char c
      && (str_eqb (after_class_run s) [] || str_eqb (after_class_run s) [10])
  end.

(** [validate_group_name]: the pair [(is_valid, error_message)]. *)
Definition validate_group_name (group_name : pystr) : bool * option pystr :=
  if negb (truthy group_name)
  then (false, Some (u "Название группы не может быть пустым"))
  else if 20 <? len group_name
  then (false,
        Some (u "Название группы слишком длинное (макс. 20 символов)"))
  else if len group_name <? 2
  then (false,
        Some (u "Название группы слишком короткое (мин. 2 символа)"))
  else if negb (group_name_pattern group_name)
  then (false,
        Some (u "Название группы может содержать только буквы, цифры и дефис"))
  else (true, None).

(* ================================================================== *)
(** * Rate limiting *)







(* ================================================================== *)
(** * Users, groups and subscriptions *)

(** [str.upper()] *)
Class Upper := {
  upper : pystr -> pystr
}.

(** Upper case in Basic Latin and the Cyrillic block, for the examples. *)
Definition upper_cp (c : Z) : Z :=
  if (97 <=? c) && (c <=? 122) then c - 32
  else if (1072 <=? c) && (c <=? 1103) then c - 32
  else if (1104 <=? c) && (c <=? 1119) then c - 80
  else c.

Definition basic_upper : Upper := {| upper := map upper_cp |}.

(** [' '.join(words)] *)
Fixpoint join_words (words : list pystr) : pystr :=
  match words with
  | [] => []
  | w :: rest =>
      match rest with
      | [] => w
      | _ :: _ => w ++ [32] ++ join_words rest
      end
  end.

Definition MAX_EXTRA_GROUPS : Z := 4.

(** The tables of [init_db] in [schedule_bot.py] and the functions that
    run one statement on them. A table is the list of its rows; of
    [users] the columns [user_id] and [group_name] ([None] for NULL) are
    kept, the only ones the code reads. A new row is put last; no
    theorem below depends on where a row stands among the others. The
    primary keys and the foreign keys of the schema are checked as the
    server checks them. Losing the connection is not modelled. *)
Module Db.

Record t := {
  users : list (Z * option pystr);
  extra_groups : list (Z * pystr);
  subscribed : list Z
}.

Definition empty : t :=
  {| users := []; extra_groups := []; subscribed := [] |}.

(** The error of an insert whose [user_id] is not in [users]. *)
Inductive error :=
| ForeignKeyViolation.

Definition same_row (a b : Z * pystr) : bool :=
  (fst a =? fst b) && str_eqb (snd a) (snd b).

Definition registered (user_id : Z) (db : t) : bool :=
  existsb (fun row => fst row =? user_id) (users db).

(** [get_user]: the row's [group_name], or [None] without a row. *)
Definition get_user (user_id : Z) (db : t) : option (option pystr) :=
  option_map snd (find (fun row => fst row =? user_id) (users db)).

(** [INSERT ... ON CONFLICT (user_id) DO UPDATE SET group_name = ...] *)
Fixpoint upsert (user_id : Z) (group_name : option pystr)
  (rows : list (Z * option pystr)) : list (Z * option pystr) :=
  match rows with
  | [] => [(user_id, group_name)]
  | row :: rest =>
      if fst row =? user_id then (fst row, group_name) :: rest
      else row :: upsert user_id group_name rest
  end.

Definition set_user_group (user_id : Z) (group_name : option pystr)
  (db : t) : t :=
  {| users := upsert user_id group_name (users db);
     extra_groups := extra_groups db;
     subscribed := subscribed db |}.

(** [user['group_name'] if user else None] *)
Definition get_user_group (user_id : Z) (db : t) : option pystr :=
  match get_user user_id db with
  | Some group_name => group_name
  | None => None
  end.

(** [INSERT INTO subscriptions ... ON CONFLICT (user_id) DO NOTHING];
    the exception of a failed insert is not caught here. *)
Definition subscribe_user (user_id : Z) (db : t) : error + t :=
  if existsb (Z.eqb user_id) (subscribed db) then inr db
  else if registered user_id db
  then inr {| users := users db;
              extra_groups := extra_groups db;
              subscribed := subscribed db ++ [user_id] |}
  else inl ForeignKeyViolation.

Definition unsubscribe_user (user_id : Z) (db : t) : t :=
  {| users := users db;
     extra_groups := extra_groups db;
     subscribed := filter (fun u => negb (u =? user_id)) (subscribed db) |}.

Definition is_subscribed (user_id : Z) (db : t) : bool :=
  existsb (Z.eqb user_id) (subscribed db).

(** [get_all_subscribers]: the column [user_id] of every row. *)
Definition get_all_subscribers (db : t) : list Z := subscribed db.

(** [get_stats]: the values of ['total'] and ['subscribed']. *)
Definition get_stats (db : t) : Z * Z :=
  (Z.of_nat (length (users db)), Z.of_nat (length (subscribed db))).

(** [add_extra_group]: whether a row was inserted. A conflict inserts
    nothing; the exception of a missing user is caught and gives
    [False]. *)
Definition add_extra_group (user_id : Z) (group_name : pystr) (db : t)
  : bool * t :=
  if existsb (same_row (user_id, group_name)) (extra_groups db)
  then (false, db)
  else if registered user_id db
  then (true,
        {| users := users db;
           extra_groups := extra_groups db ++ [(user_id, group_name)];
           subscribed := subscribed db |})
  else (false, db).

(** [remove_extra_group]: whether a row was deleted. *)
Definition remove_extra_group (user_id : Z) (group_name : pystr) (db : t)
  : bool * t :=
  (existsb (same_row (user_id, group_name)) (extra_groups db),
   {| users := users db;
      extra_groups :=
        filter (fun row => negb (same_row (user_id, group_name) row))
          (extra_groups db);
      subscribed := subscribed db |}).

Definition get_user_extra_groups (user_id : Z) (db : t) : list pystr :=
  map snd (filter (fun row => fst row =? user_id) (extra_groups db)).

Definition get_user_all_groups (user_id : Z) (db : t) : list pystr :=
  match get_user_group user_id db with
  | Some main_group =>
      if truthy main_group
      then main_group :: get_user_extra_groups user_id db
      else get_user_extra_groups user_id db
  | None => get_user_extra_groups user_id db
  end.

Definition count_extra_groups (user_id : Z) (db : t) : Z :=
  Z.of_nat
    (length (filter (fun row => fst row =? user_id) (extra_groups db))).

(** What the server guarantees of the tables: unique keys, and a row of
    [users] for every user of the other two tables. *)
Definition consistent (db : t) : Prop :=
  NoDup (map fst (users db))
  /\ NoDup (extra_groups db)
  /\ NoDup (subscribed db)
  /\ (forall row, In row (extra_groups db) -> registered (fst row) db = true)
  /\ (forall u, In u (subscribed db) -> registered u db = true).

End Db.

(** What the command handlers keep true of the tables: they are
    consistent, nobody has more extra groups than the limit, and every
    stored group name passed [validate_group_name]. *)
Definition tables_ok (db : Db.t) : Prop :=
  Db.consistent db
  /\ (forall u, Db.count_extra_groups u db <= MAX_EXTRA_GROUPS)
  /\ (forall row, In row (Db.extra_groups db) ->
                  fst (validate_group_name (snd row)) = true)
  /\ (forall u g, In (u, Some g) (Db.users db) ->
                  fst (validate_group_name g) = true).

(** The branch a command handler takes; the text of its reply is not
    modelled. *)
Inductive Reply :=
| Welcome
| Usage
| Invalid (error_message : option pystr)
| GroupSet (group : pystr)
| GroupList
| LimitReached
| AlreadyMain (group : pystr)
| GroupAdded (group : pystr) (extra_groups : list pystr)
| AlreadyAdded (group : pystr)
| GroupRemoved (group : pystr)
| NotInExtras (group : pystr)
| NoExtras
| ExtraList (extra_groups : list pystr)
| Subscribed
| Unsubscribed.

Section Handlers.
Context {P : Upper}.

(** [start]: registers the user with [set_user_group(user_id, None)]. *)
Definition start (user_id : Z) (db : Db.t) : Reply * Db.t :=
  (Welcome, Db.set_user_group user_id None db).

(** [setgroup] with [context.args = args]. Without arguments it lists
    the groups of the schedule and writes nothing. *)
Definition setgroup (user_id : Z) (args : list pystr) (db : Db.t)
  : Reply * Db.t :=
  if truthy args then
    let group := upper (join_words args) in
    if negb (fst (validate_group_name group))
    then (Invalid (snd (validate_group_name group)), db)
    else (GroupSet group, Db.set_user_group user_id (Some group) db)
  else (GroupList, db).

(** [main_group and main_group.upper() == group] *)
Definition is_main_group (main_group : option pystr) (group : pystr)
  : bool :=
  match main_group with
  | Some m => truthy m && str_eqb (upper m) group
  | None => false
  end.

Definition addgroup (user_id : Z) (args : list pystr) (db : Db.t)
  : Reply * Db.t :=
  if negb (truthy args) then (Usage, db)
  else
    let group := upper (join_words args) in
    if negb (fst (validate_group_name group))
    then (Invalid (snd (validate_group_name group)), db)
    else if MAX_EXTRA_GROUPS <=? Db.count_extra_groups user_id db
    then (LimitReached, db)
    else if is_main_group (Db.get_user_group user_id db) group
    then (AlreadyMain group, db)
    else
      let added := Db.add_extra_group user_id group db in
      if fst added
      then (GroupAdded group (Db.get_user_extra_groups user_id (snd added)),
            snd added)
      else (AlreadyAdded group, snd added).

Definition removegroup (user_id : Z) (args : list pystr) (db : Db.t)
  : Reply * Db.t :=
  if negb (truthy args)
  then
    if negb (truthy (Db.get_user_extra_groups user_id db)) then (NoExtras, db)
    else (ExtraList (Db.get_user_extra_groups user_id db), db)
  else
    let group := upper (join_words args) in
    let removed := Db.remove_extra_group user_id group db in
    if fst removed then (GroupRemoved group, snd removed)
    else (NotInExtras group, snd removed).

(** [subscribe]: the exception of [subscribe_user] leaves the handler. *)
Definition subscribe (user_id : Z) (db : Db.t) : Db.error + Reply * Db.t :=
  match Db.subscribe_user user_id db with
  | inl e => inl e
  | inr db' => inr (Subscribed, db')
  end.

Definition unsubscribe (user_id : Z) (db : Db.t) : Reply * Db.t :=
  (Unsubscribed, Db.unsubscribe_user user_id db).

(** What a user does that writes to the tables: a command, or a press
    of one of the inline buttons that [handle_callback_query] serves
    with a write (the button that removes the group written in its
    callback data, the subscribe and the unsubscribe button). *)
Inductive Command :=
| DoStart (user_id : Z)
| DoSetGroup (user_id : Z) (args : list pystr)
| DoAddGroup (user_id : Z) (args : list pystr)
| DoRemoveGroup (user_id : Z) (args : list pystr)
| DoSubscribe (user_id : Z)
| DoUnsubscribe (user_id : Z)
| PressRemoveGroup (user_id : Z) (group_to_remove : pystr)
| PressSubscribe (user_id : Z)
| PressUnsubscribe (user_id : Z).

(** The tables after a command; a handler that raises has written
    nothing. *)
Definition handle (c : Command) (db : Db.t) : Db.t :=
  match c with
  | DoStart user_id => snd (start user_id db)
  | DoSetGroup user_id args => snd (setgroup user_id args db)
  | DoAddGroup user_id args => snd (addgroup user_id args db)
  | DoRemoveGroup user_id args => snd (removegroup user_id args db)
  | DoSubscribe user_id =>
      match subscribe user_id db with
      | inl _ => db
      | inr result => snd result
      end
  | DoUnsubscribe user_id => snd (unsubscribe user_id db)
  | PressRemoveGroup user_id group_to_remove =>
      snd (Db.remove_extra_group user_id group_to_remove db)
  | PressSubscribe user_id =>
      match Db.subscribe_user user_id db with
      | inl _ => db
      | inr db' => db'
      end
  | PressUnsubscribe user_id => Db.unsubscribe_user user_id db
  end.

Definition handle_all (commands : list Command) (db : Db.t) : Db.t :=
  fold_left (fun db c => handle c db) commands db.

End Handlers.

(* ================================================================== *)
(** * Invariant of the parsed groups *)

Section SnapshotInvariant.
Context {U : Unicode}.

(** What holds of [schedule_by_group] throughout the parse: the keys are
    pairwise different and pass the header test, and no stored subject is
    a placeholder. *)
Definition well_formed_groups (d : dict GroupSchedule) : Prop :=
  NoDup (keys d)
  /\ Forall
       (fun item =>
          is_group_name (fst item) = true
          /\ Forall (fun e => is_placeholder (subject e) = false) (snd item))
       d.

End SnapshotInvariant.

(* ================================================================== *)
(** * Worked inputs *)

(** Two hash layouts: a set that iterates in insertion order, and one
    that iterates in the reverse order. *)
Definition insertion_layout : SetLayout := {|
  set_iter := fun l => l;
  set_iter_perm := fun l => Permutation_refl l
|}.

Definition reversed_layout : SetLayout := {|
  set_iter := fun l => rev l;
  set_iter_perm := fun l => Permutation_sym (Permutation_rev l)
|}.

Definition entry_ivanov : ClassEntry :=
  {| pair_number := u "1"; subject := u "Математика"; teacher := u "Иванов" |}.

Definition entry_ivanov_caps : ClassEntry :=
  {| pair_number := u "2"; subject := u "Физика"; teacher := u "ИВАНОВ" |}.

Definition entry_ivanova : ClassEntry :=
  {| pair_number := u "3"; subject := u "Химия"; teacher := u "Иванова" |}.

(** Иванов and Иванова (the specification's search example). *)
Definition snapshot_ivanov_ivanova : ScheduleData :=
  {| date := Some (u "12 ноября");
     groups := Some [(u "ИС-21", [entry_ivanov]);
                     (u "ИС-22", [entry_ivanova])] |}.

(** The same teacher typed in two letter cases. *)
Definition snapshot_two_cases : ScheduleData :=
  {| date := Some (u "12 ноября");
     groups := Some [(u "ИС-21", [entry_ivanov; entry_ivanov_caps])] |}.

(** A page with two blocks; group ИС-21 heads a column in both. Its
    second lesson slot in the first block holds the placeholder. *)
Definition page_two_blocks : pystr :=
  u "<div style='width:980px'>Расписание на 12 ноября</div><table class='border'><tr><th>ИС-21</th><th>ИС-22</th></tr><tr><td><table><tr><th>1</th><td style='overflow:hidden'>Математика <small>Иванов</small></td></tr></table><table><tr><th>2</th><td style='overflow:hidden'>нет</td></tr></table></td><td><table><tr><th>1</th><td style='overflow:hidden'>Химия <small>Иванова</small></td></tr></table></td></tr><tr><th>ИС-21</th></tr><tr><td><table><tr><th>3</th><td style='overflow:hidden'>История <small>Петров</small></td></tr></table></td></tr></table>".

Definition lesson (number text : string) (small : option string)
  : InnerTable :=
  {| it_th := Some (u number);
     it_content :=
       Some {| td_text := u text;
               td_small := option_map u small |} |}.

(** A row of a nested table: its [th] and one cell without tables. *)
Definition inner_tr (number : string) : Tr :=
  {| tr_ths := [u number]; tr_tds := [[]] |}.

Definition soup_two_blocks : Soup :=
  {| soup_date_div := Some (u "Расписание на 12 ноября");
     soup_table := Some
       [ {| tr_ths := [u "ИС-21"; u "ИС-22"]; tr_tds := [] |};
         {| tr_ths := [u "1"; u "2"; u "1"];
            tr_tds :=
              [ [lesson "1" "Математика Иванов" (Some "Иванов"%string);
                 lesson "2" "нет" None];
                [lesson "1" "Химия Иванова" (Some "Иванова"%string)] ] |};
         inner_tr "1"; inner_tr "2"; inner_tr "1";
         {| tr_ths := [u "ИС-21"]; tr_tds := [] |};
         {| tr_ths := [u "3"];
            tr_tds := [ [lesson "3" "История Петров" (Some "Петров"%string)] ] |};
         inner_tr "3" ] |}.

(** A page whose table has no group header. *)
Definition page_no_groups : pystr :=
  u "<div style='width:980px'>12 ноября</div><table class='border'><tr><th>Пара</th></tr><tr><td>-</td></tr></table>".

Definition soup_no_groups : Soup :=
  {| soup_date_div := Some (u "12 ноября");
     soup_table := Some
       [ {| tr_ths := [u "Пара"]; tr_tds := [] |};
         {| tr_ths := []; tr_tds := [[]] |} ] |}.

(** A page without the table. *)
Definition page_no_table : pystr := u "<p>Расписание не опубликовано</p>".

(** The parse of the pages above; any other text is taken to hold
    neither the date block nor the table. *)
Definition example_parser : HtmlParser := {|
  BeautifulSoup := fun text =>
    if str_eqb text page_two_blocks then soup_two_blocks
    else if str_eqb text page_no_groups then soup_no_groups
    else {| soup_date_div := None; soup_table := None |}
|}.

(** The lessons the page [page_two_blocks] holds. *)
Definition entry_maths : ClassEntry :=
  {| pair_number := u "1"; subject := u "Математика"; teacher := u "Иванов" |}.

Definition entry_chemistry : ClassEntry :=
  {| pair_number := u "1"; subject := u "Химия"; teacher := u "Иванова" |}.

Definition entry_history : ClassEntry :=
  {| pair_number := u "3"; subject := u "История"; teacher := u "Петров" |}.

(** The rows of the second block of [page_two_blocks], and the dict the
    loop holds when it reaches them. *)
Definition second_block_rows : list Tr :=
  [ {| tr_ths := [u "ИС-21"]; tr_tds := [] |};
    {| tr_ths := [u "3"];
       tr_tds := [ [lesson "3" "История Петров" (Some "Петров"%string)] ] |};
    inner_tr "3" ].

Definition after_first_block : dict GroupSchedule :=
  [(u "ИС-21", [entry_maths]); (u "ИС-22", [entry_chemistry])].

(** A subject of 19 characters that contains the marker. *)
Definition lesson_internet : InnerTable :=
  lesson "4" "Интернет-технологии Петров" (Some "Петров"%string).

(** A digest for the worked passes: the fields of the entries written
    out one after another, in place of the SHA-256 of their text. *)
Definition written_out : Digest := {|
  group_hash := fun entries =>
    flat_map
      (fun e => pair_number e ++ [124] ++ subject e ++ [124]
                ++ teacher e ++ [10])
      entries
|}.

(** Two subscribers: 101 tracks ИС-21 and ИС-22, 102 tracks ИС-22.
    No call of [send_message] fails. *)
Definition two_subscribers : World :=
  {| subscriptions := [101; 102];
     user_all_groups := fun uid =>
       if uid =? 101 then [u "ИС-21"; u "ИС-22"]
       else if uid =? 102 then [u "ИС-22"]
       else [];
     send_fails := fun _ _ => false |}.

(** The same subscribers; the message to 101 about ИС-21 fails. *)
Definition one_failure : World :=
  {| subscriptions := subscriptions two_subscribers;
     user_all_groups := user_all_groups two_subscribers;
     send_fails := fun uid g => (uid =? 101) && str_eqb g (u "ИС-21") |}.

(** The state after an earlier pass saw both groups with other lessons. *)
Definition warm_state : MonitorState :=
  {| previous_hashes := [(u "ИС-21", u "old"); (u "ИС-22", u "old")];
     user_id := None;
     sent := [] |}.

(** The groups of [page_two_blocks] as parsed, and with the subject of
    the first lesson of ИС-21 altered. *)
Definition groups_parsed : dict GroupSchedule :=
  [(u "ИС-21", [entry_maths; entry_history]); (u "ИС-22", [entry_chemistry])].

Definition groups_altered : dict GroupSchedule :=
  [(u "ИС-21",
    [ {| pair_number := u "1"; subject := u "Алгебра"; teacher := u "Иванов" |};
      entry_history ]);
   (u "ИС-22", [entry_chemistry])].

(** The snapshot of [page_two_blocks] and the hashes a pass over it
    stores. *)
Definition snapshot_parsed : ScheduleData :=
  {| date := Some (u "Расписание на 12 ноября");
     groups := Some groups_parsed |}.

Definition state_after_parsed : MonitorState :=
  {| previous_hashes :=
       [(u "ИС-21", @group_hash written_out [entry_maths; entry_history]);
        (u "ИС-22", @group_hash written_out [entry_chemistry])];
     user_id := None;
     sent := [] |}.

(** A snapshot from which ИС-21 is missing. *)
Definition groups_without_first : dict GroupSchedule :=
  [(u "ИС-22", [entry_chemistry])].

(** Two passes during an outage: a failed request, then a page without
    the table. *)
Definition outage : list (World * Fetched) :=
  [(two_subscribers, FetchFailed);
   (two_subscribers, Response page_no_table)].

(** A header row that names ИС-21 again and a new group ИС-23. *)
Definition header_two_names : Tr :=
  {| tr_ths := [u "ИС-21"; u "ИС-23"]; tr_tds := [] |}.

(** The content row of [second_block_rows] with one cell more than the
    block has names. *)
Definition history_cell : BigCell :=
  [lesson "3" "История Петров" (Some "Петров"%string)].

Definition stray_cell : BigCell :=
  [lesson "1" "Химия Иванова" (Some "Иванова"%string)].

(** Three lines of two characters, and a text whose first line has six. *)
Definition three_short_lines : pystr :=
  u "ab" ++ [10] ++ u "cd" ++ [10] ++ u "ef".

Definition long_first_line : pystr := u "abcdef" ++ [10] ++ u "gh".





(** The tables after user 101 has sent start, setgroup ис-21 and
    addgroup ис-22. *)
Definition tables_of_101 : Db.t :=
  @handle_all basic_upper
    [DoStart 101; DoSetGroup 101 [u "ис-21"]; DoAddGroup 101 [u "ис-22"]]
    Db.empty.

(* ================================================================== *)
(** * Strings and dictionaries: basic facts *)

Example u_decodes :
  u "нет" = [1085; 1077; 1090] /\ u "A1" = [65; 49] /\ len (u "ИС-21") = 5.
Proof. repeat split; reflexivity. Qed.

Lemma str_eqb_eq (a b : pystr) : str_eqb a b = true <-> a = b.
Proof.
  revert b; induction a as [|x a IH]; intros [|y b]; simpl.
  - tauto.
  - split; discriminate.
  - split; discriminate.
  - rewrite andb_true_iff, Z.eqb_eq, IH. split.
    + intros [-> ->]; reflexivity.
    + intros E; injection E as -> ->; split; reflexivity.
Qed.

Lemma str_eqb_refl (a : pystr) : str_eqb a a = true.
Proof. apply str_eqb_eq; reflexivity. Qed.

Lemma str_eqb_neq (a b : pystr) : str_eqb a b = false <-> a <> b.
Proof.
  rewrite <- str_eqb_eq. destruct (str_eqb a b); split; congruence.
Qed.

Lemma str_eqb_sym (a b : pystr) : str_eqb a b = str_eqb b a.
Proof.
  destruct (str_eqb a b) eqn:E.
  - apply str_eqb_eq in E; subst; symmetry; apply str_eqb_refl.
  - apply str_eqb_neq in E. symmetry; apply str_eqb_neq; congruence.
Qed.

Lemma truthy_true {A : Type} (l : list A) : truthy l = true <-> l <> [].
Proof. destruct l; simpl; split; congruence. Qed.

Lemma truthy_false {A : Type} (l : list A) : truthy l = false <-> l = [].
Proof. destruct l; simpl; split; congruence. Qed.

Lemma startswith_spec (needle s : pystr) :
  startswith needle s = true <-> exists post, s = needle ++ post.
Proof.
  revert s; induction needle as [|x needle IH]; intros s; simpl.
  - split; [intros _; exists s; reflexivity | reflexivity].
  - destruct s as [|y s].
    + split; [discriminate | intros [post E]; discriminate E].
    + rewrite andb_true_iff, Z.eqb_eq, IH. split.
      * intros [-> [post ->]]; exists post; reflexivity.
      * intros [post E]; injection E as -> ->; split; [reflexivity | eauto].
Qed.

(** [needle in s] holds exactly when [needle] occurs in [s]. *)
Lemma str_in_spec (needle s : pystr) :
  str_in needle s = true <-> exists pre post, s = pre ++ needle ++ post.
Proof.
  induction s as [|c s IH].
  - simpl. rewrite orb_false_r, startswith_spec. split.
    + intros [post E]; exists [], post; exact E.
    + intros [pre [post E]]. destruct pre; [exists post; exact E | discriminate E].
  - cbn [str_in]. rewrite orb_true_iff, startswith_spec, IH. split.
    + intros [[post E] | [pre [post E]]].
      * exists [], post; exact E.
      * exists (c :: pre), post; rewrite E; reflexivity.
    + intros [pre [post E]]. destruct pre as [|c' pre].
      * left; exists post; exact E.
      * right; injection E as _ E; exists pre, post; exact E.
Qed.

Lemma str_in_refl (s : pystr) : str_in s s = true.
Proof.
  apply str_in_spec; exists [], []; rewrite app_nil_r; reflexivity.
Qed.

Section DictFacts.
Context {V : Type}.
Implicit Types (d : dict V) (k g : pystr) (v : V).

Lemma dict_get_set g k v d :
  dict_get g (dict_set k v d) = if str_eqb g k then Some v else dict_get g d.
Proof.
  induction d as [|[k' v'] d IH]; simpl.
  - destruct (str_eqb g k); reflexivity.
  - destruct (str_eqb k k') eqn:Ek; simpl.
    + apply str_eqb_eq in Ek; subst k'. destruct (str_eqb g k); reflexivity.
    + destruct (str_eqb g k') eqn:Eg.
      * apply str_eqb_eq in Eg; subst k'.
        rewrite str_eqb_sym, Ek; reflexivity.
      * exact IH.
Qed.

Lemma dict_get_None_keys g d : dict_get g d = None <-> ~ In g (keys d).
Proof.
  induction d as [|[k' v'] d IH]; simpl.
  - tauto.
  - destruct (str_eqb g k') eqn:E.
    + apply str_eqb_eq in E; subst. split; [discriminate | intros N; exfalso; auto].
    + apply str_eqb_neq in E. rewrite IH. split.
      * intros N [E' | I]; [congruence | auto].
      * intros N I; apply N; right; exact I.
Qed.

Lemma dict_get_Some_In g v d : dict_get g d = Some v -> In (g, v) d.
Proof.
  induction d as [|[k' v'] d IH]; simpl; [discriminate|].
  destruct (str_eqb g k') eqn:E.
  - apply str_eqb_eq in E; subst. intros [= ->]; left; reflexivity.
  - intros G; right; auto.
Qed.

Lemma In_dict_get g v d : NoDup (keys d) -> In (g, v) d -> dict_get g d = Some v.
Proof.
  induction d as [|[k' v'] d IH]; simpl; [tauto|].
  intros N [E | I].
  - injection E as -> ->. rewrite str_eqb_refl; reflexivity.
  - inversion N as [|? ? Nk Nd]; subst.
    destruct (str_eqb g k') eqn:E.
    + apply str_eqb_eq in E; subst. exfalso; apply Nk.
      change (In (fst (k', v)) (map fst d)); apply in_map; exact I.
    + auto.
Qed.

Lemma keys_dict_set k v d :
  keys (dict_set k v d) = if dict_mem k d then keys d else keys d ++ [k].
Proof.
  unfold dict_mem. induction d as [|[k' v'] d IH]; simpl; [reflexivity|].
  destruct (str_eqb k k') eqn:E; simpl; [reflexivity|].
  rewrite IH. destruct (dict_get k d); reflexivity.
Qed.

Lemma NoDup_dict_set k v d : NoDup (keys d) -> NoDup (keys (dict_set k v d)).
Proof.
  intros N. rewrite keys_dict_set. unfold dict_mem.
  destruct (dict_get k d) eqn:G; [exact N|].
  apply dict_get_None_keys in G.
  apply NoDup_rev in N. rewrite <- (rev_involutive (keys d ++ [k])).
  apply NoDup_rev. rewrite rev_app_distr; simpl. constructor; [|exact N].
  rewrite <- in_rev; exact G.
Qed.

End DictFacts.

Lemma existsb_str_eqb (x : pystr) (l : list pystr) :
  existsb (str_eqb x) l = true <-> In x l.
Proof.
  rewrite existsb_exists. split.
  - intros [y [I E]]. apply str_eqb_eq in E; subst; exact I.
  - intros I; exists x; split; [exact I | apply str_eqb_refl].
Qed.

Lemma distinct_NoDup (l : list pystr) : distinct l = true -> NoDup l.
Proof.
  induction l as [|x l IH]; simpl; [constructor|].
  rewrite andb_true_iff, negb_true_iff. intros [X D].
  constructor; [|auto].
  rewrite <- existsb_str_eqb, X; discriminate.
Qed.

(* ================================================================== *)
(** * Query layer: theorems *)

Section QueryFacts.
Context {U : Unicode} {L : SetLayout}.

(** The test of [schedule_bot.py] is containment of the lowered name in
    the lowered, non-empty teacher: its equality disjunct adds nothing. *)
Lemma teacher_matches_spec (name : pystr) (pair : ClassEntry) :
  teacher_matches (lower name) pair = true <->
  teacher pair <> [] /\
  exists pre post, lower (teacher pair) = pre ++ lower name ++ post.
Proof.
  unfold teacher_matches.
  rewrite andb_true_iff, orb_true_iff, truthy_true, <- str_in_spec.
  split; intros [T M]; split; auto.
  destruct M as [E | I]; [|exact I].
  apply str_eqb_eq in E. rewrite <- E. apply str_in_refl.
Qed.

Lemma teacher_matches_backup_eq (tl : pystr) (pair : ClassEntry) :
  teacher_matches_backup tl pair = teacher_matches tl pair.
Proof.
  unfold teacher_matches, teacher_matches_backup.
  destruct (truthy (teacher pair)); simpl; [|reflexivity].
  destruct (str_eqb tl (lower (teacher pair))) eqn:E; simpl; [|reflexivity].
  apply str_eqb_eq in E. rewrite <- E. apply str_in_refl.
Qed.

(** X1. The two variants of [find_teacher_schedule], that of
    [schedule_bot.py] and that of [schedule_bot_backup.py], return the
    same mapping for every name and snapshot. *)
Lemma find_teacher_schedule_backup_same (name : pystr)
  (schedule_data : option ScheduleData) :
  find_teacher_schedule_backup name schedule_data =
  find_teacher_schedule name schedule_data.
Proof.
  unfold find_teacher_schedule_backup, find_teacher_schedule,
    find_teacher_schedule_with.
  destruct schedule_data as [sd|]; [|reflexivity].
  destruct (negb (has_keys sd)); [reflexivity|].
  destruct (groups sd) as [gs|]; [|reflexivity].
  unfold find_in_groups.
  match goal with
  | |- fold_left ?f gs ?a = fold_left ?f' gs ?a =>
      enough (E : forall acc, fold_left f gs acc = fold_left f' gs acc)
        by apply E
  end.
  induction gs as [|[g pairs] gs IH]; intros acc; simpl; [reflexivity|].
  rewrite (filter_ext _ _ (teacher_matches_backup_eq (lower name))).
  apply IH.
Qed.

Lemma find_in_groups_fold (matches : pystr -> ClassEntry -> bool)
  (tl : pystr) (gs acc : dict GroupSchedule) (g : pystr) :
  NoDup (keys gs) ->
  (forall k, In k (keys gs) -> dict_get k acc = None) ->
  dict_get g
    (fold_left
       (fun result item =>
          let matching_pairs := filter (matches tl) (snd item) in
          if truthy matching_pairs
          then dict_set (fst item) matching_pairs result
          else result) gs acc) =
  match dict_get g acc with
  | Some v => Some v
  | None => matching_or_absent (matches tl) (dict_get g gs)
  end.
Proof.
  revert acc; induction gs as [|[k pairs] gs IH]; intros acc N Fresh.
  - simpl. destruct (dict_get g acc); reflexivity.
  - inversion N as [|? ? Nk Ngs]; subst. cbn [fold_left fst snd].
    rewrite IH; [|exact Ngs|].
    + cbn [dict_get]. destruct (filter (matches tl) pairs) as [|p m] eqn:F;
        cbn [truthy].
      * destruct (dict_get g acc) eqn:G; [reflexivity|].
        destruct (str_eqb g k) eqn:E; [|reflexivity].
        apply str_eqb_eq in E; subst k. cbn [matching_or_absent]. rewrite F.
        apply dict_get_None_keys in Nk. rewrite Nk. reflexivity.
      * rewrite dict_get_set. destruct (str_eqb g k) eqn:E.
        -- apply str_eqb_eq in E; subst k.
           rewrite (Fresh g) by (left; reflexivity).
           cbn [matching_or_absent]. rewrite F. reflexivity.
        -- destruct (dict_get g acc); reflexivity.
    + intros k' I. destruct (truthy (filter (matches tl) pairs)).
      * rewrite dict_get_set. destruct (str_eqb k' k) eqn:E.
        -- apply str_eqb_eq in E; subst k'. exfalso; exact (Nk I).
        -- apply Fresh; right; exact I.
      * apply Fresh; right; exact I.
Qed.

Lemma find_in_groups_get (matches : pystr -> ClassEntry -> bool)
  (name : pystr) (gs : dict GroupSchedule) (g : pystr) :
  NoDup (keys gs) ->
  dict_get g (find_in_groups matches name gs) =
  matching_or_absent (matches (lower name)) (dict_get g gs).
Proof.
  intros N. unfold find_in_groups.
  rewrite find_in_groups_fold; [reflexivity | exact N | reflexivity].
Qed.

(** C10. [find_teacher_schedule] returns the empty mapping when the
    snapshot is [None] and when it is a dict without the key ['groups'],
    whatever the teacher name. The function is total: no path of it
    raises. *)
Theorem find_teacher_schedule_without_groups :
  forall (teacher_name : pystr),
    find_teacher_schedule teacher_name None = []
    /\ (forall d,
          find_teacher_schedule teacher_name
            (Some {| date := d; groups := None |}) = [])
    /\ find_teacher_schedule_backup teacher_name None = []
    /\ (forall d,
          find_teacher_schedule_backup teacher_name
            (Some {| date := d; groups := None |}) = []).
Proof.
  intros teacher_name. repeat split; try reflexivity;
    intros d; unfold find_teacher_schedule, find_teacher_schedule_backup,
      find_teacher_schedule_with; simpl;
    destruct (negb (has_keys _)); reflexivity.
Qed.

(** C2, as the code has it. For a snapshot with groups [gs], the result
    maps a group to the pairs of that group, in order, whose teacher is
    non-empty and contains the name (both in lower case); a group without
    such a pair has no key. Equality is a case of containment, and a
    teacher that is a proper part of the name does not match. *)
Theorem find_teacher_schedule_one_way :
  forall (teacher_name : pystr) (sd : ScheduleData)
         (gs : dict GroupSchedule),
    groups sd = Some gs ->
    NoDup (keys gs) ->
    (forall g,
       dict_get g (find_teacher_schedule teacher_name (Some sd)) =
       matching_or_absent (teacher_matches (lower teacher_name))
         (dict_get g gs))
    /\ (forall pair,
          teacher_matches (lower teacher_name) pair = true <->
          teacher pair <> [] /\
          exists pre post,
            lower (teacher pair) = pre ++ lower teacher_name ++ post)
    /\ (forall g,
          dict_get g (find_teacher_schedule teacher_name (Some sd)) <> Some []).
Proof.
  intros teacher_name sd gs G N.
  assert (R : forall g,
             dict_get g (find_teacher_schedule teacher_name (Some sd)) =
             matching_or_absent (teacher_matches (lower teacher_name))
               (dict_get g gs)).
  { intros g. unfold find_teacher_schedule, find_teacher_schedule_with.
    unfold has_keys. rewrite G. destruct (date sd); simpl;
      apply find_in_groups_get; exact N. }
  split; [exact R|]. split; [apply teacher_matches_spec|].
  intros g. rewrite R. unfold matching_or_absent.
  destruct (dict_get g gs) as [ps|]; [|discriminate].
  destruct (filter _ ps); discriminate.
Qed.

End QueryFacts.

(** C2, the claim as worded, at a snapshot where group ИС-21 is taught by
    Иванов and group ИС-22 by Иванова, for the name Иванова. Under the
    symmetric match the pair of Иванов is selected (his name is part of
    the queried one), so ИС-21 would be a key of the result; the code
    returns no key ИС-21. *)
Lemma find_teacher_schedule_not_symmetric :
  matching_or_absent
    (@symmetric_match basic_unicode (@lower basic_unicode (u "Иванова")))
    (dict_get (u "ИС-21")
       [(u "ИС-21", [entry_ivanov]); (u "ИС-22", [entry_ivanova])])
  = Some [entry_ivanov]
  /\ dict_get (u "ИС-21")
       (@find_teacher_schedule basic_unicode (u "Иванова")
          (Some snapshot_ivanov_ivanova)) = None
  /\ @find_teacher_schedule basic_unicode (u "Иванова")
       (Some snapshot_ivanov_ivanova) = [(u "ИС-22", [entry_ivanova])]
  /\ @find_teacher_schedule_backup basic_unicode (u "Иванова")
       (Some snapshot_ivanov_ivanova) = [(u "ИС-22", [entry_ivanova])].
Proof. repeat split; vm_compute; reflexivity. Qed.

Lemma find_teacher_schedule_one_way_witness :
  NoDup (keys [(u "ИС-21", [entry_ivanov]); (u "ИС-22", [entry_ivanova])])
  /\ dict_get (u "ИС-21")
       (@find_teacher_schedule basic_unicode (u "иван")
          (Some snapshot_ivanov_ivanova)) = Some [entry_ivanov]
  /\ dict_get (u "ИС-22")
       (@find_teacher_schedule basic_unicode (u "Иванова")
          (Some snapshot_ivanov_ivanova)) = Some [entry_ivanova].
Proof.
  assert (N : NoDup (keys [(u "ИС-21", [entry_ivanov]);
                           (u "ИС-22", [entry_ivanova])])).
  { apply distinct_NoDup; vm_compute; reflexivity. }
  split; [exact N|]. split.
  - destruct (@find_teacher_schedule_one_way basic_unicode (u "иван")
                snapshot_ivanov_ivanova _ eq_refl N) as [R _].
    rewrite R. vm_compute; reflexivity.
  - destruct (@find_teacher_schedule_one_way basic_unicode (u "Иванова")
                snapshot_ivanov_ivanova _ eq_refl N) as [R _].
    rewrite R. vm_compute; reflexivity.
Defined.

(* ------------------------------------------------------------------ *)
(** ** [sorted] *)

Lemma str_leb_total (a b : pystr) : str_leb a b = false -> str_leb b a = true.
Proof.
  revert b; induction a as [|x a IH]; intros [|y b]; simpl;
    try discriminate; try reflexivity.
  destruct (x <? y) eqn:Lt; [discriminate|].
  destruct (x =? y) eqn:Eq.
  - apply Z.eqb_eq in Eq; subst y. rewrite Z.ltb_irrefl, Z.eqb_refl. apply IH.
  - intros _. apply Z.ltb_ge in Lt. apply Z.eqb_neq in Eq.
    assert (Lt' : (y <? x) = true) by (apply Z.ltb_lt; lia).
    rewrite Lt'; reflexivity.
Qed.

Lemma insert_sorted_perm (x : pystr) (l : list pystr) :
  Permutation (insert_sorted x l) (x :: l).
Proof.
  induction l as [|y l IH]; simpl; [reflexivity|].
  destruct (str_leb x y); [reflexivity|].
  rewrite IH. apply perm_swap.
Qed.

Lemma sorted_perm (l : list pystr) : Permutation (sorted l) l.
Proof.
  induction l as [|x l IH]; simpl; [reflexivity|].
  rewrite insert_sorted_perm. constructor; exact IH.
Qed.

Lemma insert_sorted_HdRel (z x : pystr) (l : list pystr) :
  str_le z x -> HdRel str_le z l -> HdRel str_le z (insert_sorted x l).
Proof.
  intros Zx Hd. destruct l as [|y l]; simpl.
  - constructor; exact Zx.
  - destruct (str_leb x y); constructor; [exact Zx|].
    inversion Hd; assumption.
Qed.

Lemma insert_sorted_Sorted (x : pystr) (l : list pystr) :
  Sorted str_le l -> Sorted str_le (insert_sorted x l).
Proof.
  induction 1 as [|y l S IH Hd]; simpl.
  - repeat constructor.
  - destruct (str_leb x y) eqn:E.
    + constructor; [constructor; assumption | constructor; exact E].
    + constructor; [exact IH|].
      apply insert_sorted_HdRel; [apply str_leb_total; exact E | exact Hd].
Qed.

(** [sorted] returns its argument rearranged in ascending order. *)
Lemma sorted_Sorted (l : list pystr) : Sorted str_le (sorted l).
Proof.
  induction l as [|x l IH]; simpl; [constructor|].
  apply insert_sorted_Sorted; exact IH.
Qed.

(* ------------------------------------------------------------------ *)
(** ** [get_all_teachers] and [search_teachers] *)

Lemma set_add_In (x y : pystr) (s : list pystr) :
  In y (set_add x s) <-> y = x \/ In y s.
Proof.
  unfold set_add. destruct (existsb (str_eqb x) s) eqn:E.
  - apply existsb_str_eqb in E. split; [auto|]. intros [-> | I]; assumption.
  - rewrite in_app_iff; simpl. split; intros [A | B]; auto.
    + destruct B as [<- | []]; auto.
Qed.

Lemma set_add_NoDup (x : pystr) (s : list pystr) :
  NoDup s -> NoDup (set_add x s).
Proof.
  intros N. unfold set_add. destruct (existsb (str_eqb x) s) eqn:E; [exact N|].
  assert (X : ~ In x s) by (rewrite <- existsb_str_eqb, E; discriminate).
  apply NoDup_rev in N. rewrite <- (rev_involutive (s ++ [x])).
  apply NoDup_rev. rewrite rev_app_distr; simpl.
  constructor; [rewrite <- in_rev; exact X | exact N].
Qed.

Lemma Permutation_in_iff {A : Type} (x : A) (l l' : list A) :
  Permutation l l' -> (In x l <-> In x l').
Proof.
  intros P; split; apply Permutation_in; [exact P | symmetry; exact P].
Qed.

Section SearchFacts.
Context {U : Unicode} {L : SetLayout}.

Lemma add_teachers_In (pairs : GroupSchedule) (acc : list pystr) (t : pystr) :
  In t (add_teachers pairs acc) <->
  In t acc \/ (t <> [] /\ exists p, In p pairs /\ teacher p = t).
Proof.
  unfold add_teachers. revert acc.
  induction pairs as [|p pairs IH]; intros acc; simpl.
  - split; [auto | intros [I | [_ [p [[] _]]]]; exact I].
  - rewrite IH. destruct (truthy (teacher p)) eqn:T.
    + rewrite set_add_In. apply truthy_true in T. split.
      * intros [[-> | I] | [Nt [q [I E]]]]; eauto 6.
      * intros [I | [Nt [q [[-> | I] E]]]]; eauto 6.
    + apply truthy_false in T. split.
      * intros [I | [Nt [q [I E]]]]; eauto 6.
      * intros [I | [Nt [q [[-> | I] E]]]]; eauto 6. congruence.
Qed.

Lemma add_teachers_NoDup (pairs : GroupSchedule) (acc : list pystr) :
  NoDup acc -> NoDup (add_teachers pairs acc).
Proof.
  unfold add_teachers. revert acc.
  induction pairs as [|p pairs IH]; intros acc N; simpl; [exact N|].
  apply IH. destruct (truthy (teacher p)); [apply set_add_NoDup|]; exact N.
Qed.

Lemma teachers_fold_In (gs : dict GroupSchedule) (acc : list pystr)
  (t : pystr) :
  In t (fold_left (fun acc item => add_teachers (snd item) acc) gs acc) <->
  In t acc \/
  (t <> [] /\ exists g pairs p, In (g, pairs) gs /\ In p pairs /\ teacher p = t).
Proof.
  revert acc; induction gs as [|[g pairs] gs IH]; intros acc; simpl.
  - split; [auto | intros [I | [_ [g [ps [p [[] _]]]]]]; exact I].
  - rewrite IH, add_teachers_In. split.
    + intros [[I | [Nt [p [I E]]]] | [Nt [g' [ps [p [I [Ip E]]]]]]].
      * left; exact I.
      * right; split; [exact Nt|]. exists g, pairs, p; auto.
      * right; split; [exact Nt|]. exists g', ps, p; auto.
    + intros [I | [Nt [g' [ps [p [[E0 | I] [Ip E]]]]]]].
      * left; left; exact I.
      * injection E0 as <- <-. left; right; split; [exact Nt|]; eauto.
      * right; split; [exact Nt|]. exists g', ps, p; auto.
Qed.

Lemma teachers_fold_NoDup (gs : dict GroupSchedule) (acc : list pystr) :
  NoDup acc ->
  NoDup (fold_left (fun acc item => add_teachers (snd item) acc) gs acc).
Proof.
  revert acc; induction gs as [|[g pairs] gs IH]; intros acc N; simpl;
    [exact N|]. apply IH, add_teachers_NoDup, N.
Qed.

(** X2. [get_all_teachers] is the set of the non-empty teacher names of
    the snapshot, each listed once. *)
Lemma get_all_teachers_spec (sd : ScheduleData) (gs : dict GroupSchedule) :
  groups sd = Some gs ->
  NoDup (get_all_teachers (Some sd)) /\
  forall t,
    In t (get_all_teachers (Some sd)) <->
    t <> [] /\
    exists g pairs p, In (g, pairs) gs /\ In p pairs /\ teacher p = t.
Proof.
  intros G. unfold get_all_teachers, has_keys. rewrite G.
  replace (negb match date sd with Some _ | _ => true end) with false
    by (destruct (date sd); reflexivity).
  split.
  - eapply Permutation_NoDup; [symmetry; apply set_iter_perm|].
    apply teachers_fold_NoDup; constructor.
  - intros t. rewrite (Permutation_in_iff t _ _ (set_iter_perm _)).
    unfold teachers_inserted. rewrite teachers_fold_In. simpl; tauto.
Qed.

(** X3. With an exact match in the set, [search_teachers] returns the
    exact matches and nothing else, in the order the set iterates. *)
Lemma search_teachers_exact (query : pystr)
  (schedule_data : option ScheduleData) :
  (exists t, In t (get_all_teachers schedule_data)
             /\ lower t = lower query) ->
  search_teachers query schedule_data =
    filter (fun t => str_eqb (lower t) (lower query))
      (get_all_teachers schedule_data)
  /\ forall t,
       In t (search_teachers query schedule_data) <->
       In t (get_all_teachers schedule_data) /\ lower t = lower query.
Proof.
  intros [t0 [I0 E0]]. unfold search_teachers.
  destruct (filter _ (get_all_teachers schedule_data)) as [|m ms] eqn:F.
  - exfalso.
    assert (I : In t0 (filter (fun t => str_eqb (lower t) (lower query))
                         (get_all_teachers schedule_data))).
    { apply filter_In; split; [exact I0 | apply str_eqb_eq; exact E0]. }
    rewrite F in I; exact I.
  - cbn [truthy]. split; [reflexivity|]. intros t. rewrite <- F.
    rewrite filter_In, str_eqb_eq. reflexivity.
Qed.

(** X4. Without an exact match, [search_teachers] returns the names
    that contain the query (in lower case), in ascending order. *)
Lemma search_teachers_partial (query : pystr)
  (schedule_data : option ScheduleData) :
  (forall t, In t (get_all_teachers schedule_data) ->
             lower t <> lower query) ->
  Sorted str_le (search_teachers query schedule_data)
  /\ forall t,
       In t (search_teachers query schedule_data) <->
       In t (get_all_teachers schedule_data)
       /\ exists pre post, lower t = pre ++ lower query ++ post.
Proof.
  intros NoExact. unfold search_teachers.
  destruct (filter (fun t => str_eqb (lower t) (lower query))
              (get_all_teachers schedule_data)) as [|m ms] eqn:F.
  - cbn [truthy]. split; [apply sorted_Sorted|]. intros t.
    rewrite (Permutation_in_iff t _ _ (sorted_perm _)).
    rewrite filter_In, str_in_spec. reflexivity.
  - exfalso.
    assert (I : In m (m :: ms)) by (left; reflexivity).
    rewrite <- F in I. apply filter_In in I. destruct I as [I E].
    apply str_eqb_eq in E. exact (NoExact m I E).
Qed.

End SearchFacts.

Lemma get_all_teachers_spec_witness :
  NoDup (@get_all_teachers reversed_layout (Some snapshot_ivanov_ivanova))
  /\ In (u "Иванова")
       (@get_all_teachers reversed_layout (Some snapshot_ivanov_ivanova)).
Proof.
  destruct (@get_all_teachers_spec reversed_layout snapshot_ivanov_ivanova
              _ eq_refl) as [N I].
  split; [exact N|]. apply I. split; [vm_compute; discriminate|].
  exists (u "ИС-22"), [entry_ivanova], entry_ivanova.
  split; [right; left; reflexivity|]. split; [left|]; reflexivity.
Defined.

Lemma search_teachers_exact_witness :
  @search_teachers basic_unicode reversed_layout (u "ИВАНОВ")
    (Some snapshot_ivanov_ivanova) = [u "Иванов"].
Proof.
  destruct (@search_teachers_exact basic_unicode reversed_layout (u "ИВАНОВ")
              (Some snapshot_ivanov_ivanova)) as [E _].
  - exists (u "Иванов"). split; [vm_compute; auto | vm_compute; reflexivity].
  - rewrite E. vm_compute; reflexivity.
Defined.

Lemma search_teachers_partial_witness :
  Sorted str_le
    (@search_teachers basic_unicode reversed_layout (u "иван")
       (Some snapshot_ivanov_ivanova))
  /\ In (u "Иванова")
       (@search_teachers basic_unicode reversed_layout (u "иван")
          (Some snapshot_ivanov_ivanova)).
Proof.
  destruct (@search_teachers_partial basic_unicode reversed_layout (u "иван")
              (Some snapshot_ivanov_ivanova)) as [S I].
  - intros t It. vm_compute in It.
    destruct It as [<- | [<- | []]]; vm_compute; discriminate.
  - split; [exact S|]. apply I. split; [vm_compute; auto|].
    exists [], (u "ова"). vm_compute; reflexivity.
Defined.

(** The specification's search example: with Иванов and Иванова in the
    snapshot, the query Иванов returns Иванов alone, under either layout. *)
Example search_teachers_exact_wins :
  @search_teachers basic_unicode insertion_layout (u "Иванов")
    (Some snapshot_ivanov_ivanova) = [u "Иванов"]
  /\ @search_teachers basic_unicode reversed_layout (u "Иванов")
       (Some snapshot_ivanov_ivanova) = [u "Иванов"]
  /\ @search_teachers basic_unicode insertion_layout (u "иван")
       (Some snapshot_ivanov_ivanova) = [u "Иванов"; u "Иванова"]
  /\ @search_teachers basic_unicode reversed_layout (u "иван")
       (Some snapshot_ivanov_ivanova) = [u "Иванов"; u "Иванова"].
Proof. repeat split; vm_compute; reflexivity. Qed.

(** C4, the exact-match path at a snapshot that holds one teacher in two
    letter cases, queried as иванов. Both names match exactly, and
    [search_teachers] returns them as the set iterates: Иванов before
    ИВАНОВ under the layout that iterates in insertion order. That list
    is not ascending (ИВАНОВ sorts first); [sorted], which the partial
    path applies, would have returned the other order. *)
Theorem search_teachers_exact_not_sorted :
  @search_teachers basic_unicode insertion_layout (u "иванов")
    (Some snapshot_two_cases) = [u "Иванов"; u "ИВАНОВ"]
  /\ str_leb (u "Иванов") (u "ИВАНОВ") = false
  /\ sorted [u "Иванов"; u "ИВАНОВ"] = [u "ИВАНОВ"; u "Иванов"]
  /\ @search_teachers basic_unicode reversed_layout (u "иванов")
       (Some snapshot_two_cases) = [u "ИВАНОВ"; u "Иванов"].
Proof. repeat split; vm_compute; reflexivity. Qed.

(* ================================================================== *)
(** * Table parser: theorems *)

Section ParserFacts.
Context {U : Unicode} {H : HtmlParser}.

Lemma lstrip_all_space (s : pystr) :
  Forall (fun c => isspace c = true) s -> lstrip s = [].
Proof.
  induction 1 as [|c s C _ IH]; simpl; [reflexivity|].
  rewrite C; exact IH.
Qed.

Lemma strip_all_space (s : pystr) :
  Forall (fun c => isspace c = true) s -> strip s = [].
Proof.
  intros A. unfold strip. rewrite (lstrip_all_space s A). reflexivity.
Qed.

Lemma strip_nil : strip [] = [].
Proof. reflexivity. Qed.

Lemma is_group_name_spec (s : pystr) :
  is_group_name s = true <->
  3 <= len s <= 15
  /\ (exists c, In c s /\ isalpha c = true)
  /\ (exists c, In c s /\ isdigit c = true).
Proof.
  unfold is_group_name.
  rewrite !andb_true_iff, !existsb_exists, Z.leb_le, Z.leb_le, truthy_true.
  split.
  - intros [[_ [A B]] [D L]]. auto.
  - intros [[A B] [L D]]. repeat split; auto.
    intros ->. unfold len in A; simpl in A; lia.
Qed.

Lemma dict_get_append (g k : pystr) (e : ClassEntry)
  (d : dict GroupSchedule) :
  dict_get g (dict_append k e d) =
  if str_eqb g k then option_map (fun v => v ++ [e]) (dict_get g d)
  else dict_get g d.
Proof.
  induction d as [|[k' v] d IH]; simpl.
  - destruct (str_eqb g k); reflexivity.
  - destruct (str_eqb k k') eqn:Ek; simpl.
    + apply str_eqb_eq in Ek; subst k'.
      destruct (str_eqb g k); reflexivity.
    + destruct (str_eqb g k') eqn:Eg.
      * apply str_eqb_eq in Eg; subst k'.
        rewrite str_eqb_sym, Ek; reflexivity.
      * exact IH.
Qed.

Lemma keys_dict_append (k : pystr) (e : ClassEntry)
  (d : dict GroupSchedule) : keys (dict_append k e d) = keys d.
Proof.
  induction d as [|[k' v] d IH]; simpl; [reflexivity|].
  destruct (str_eqb k k'); simpl; [reflexivity|]. rewrite IH; reflexivity.
Qed.

Lemma dict_get_fill_cell (g k : pystr) (big_cell : BigCell)
  (d : dict GroupSchedule) :
  dict_get g (fill_cell k big_cell d) =
  if str_eqb g k
  then option_map (fun v => v ++ cell_entries big_cell) (dict_get g d)
  else dict_get g d.
Proof.
  unfold fill_cell, cell_entries. revert d.
  induction big_cell as [|it cell IH]; intros d; simpl.
  - destruct (str_eqb g k); [|reflexivity].
    destruct (dict_get g d); simpl; [rewrite app_nil_r|]; reflexivity.
  - rewrite IH. destruct (str_eqb g k) eqn:E; destruct (lesson_entry it);
      try reflexivity.
    + rewrite dict_get_append, E. destruct (dict_get g d); simpl;
        [rewrite <- app_assoc|]; reflexivity.
    + rewrite dict_get_append, E. reflexivity.
Qed.

Lemma keys_fill_cell (k : pystr) (big_cell : BigCell)
  (d : dict GroupSchedule) : keys (fill_cell k big_cell d) = keys d.
Proof.
  unfold fill_cell. revert d.
  induction big_cell as [|it cell IH]; intros d; simpl; [reflexivity|].
  rewrite IH. destruct (lesson_entry it); [apply keys_dict_append|reflexivity].
Qed.

Lemma dict_get_fill_cells (g : pystr) (names : list pystr)
  (cells : list BigCell) (d : dict GroupSchedule) :
  dict_get g (fill_cells names cells d) =
  option_map (fun v => v ++ block_entries g names cells) (dict_get g d).
Proof.
  revert names d. induction cells as [|c cells IH]; intros names d.
  - destruct names; simpl; destruct (dict_get g d); simpl;
      rewrite ?app_nil_r; reflexivity.
  - destruct names as [|n names]; simpl.
    + destruct (dict_get g d); simpl; [rewrite app_nil_r|]; reflexivity.
    + rewrite IH, dict_get_fill_cell.
      destruct (str_eqb g n); destruct (dict_get g d); simpl;
        rewrite <- ?app_assoc; reflexivity.
Qed.

Lemma keys_fill_cells (names : list pystr) (cells : list BigCell)
  (d : dict GroupSchedule) : keys (fill_cells names cells d) = keys d.
Proof.
  revert names d. induction cells as [|c cells IH]; intros names d;
    [destruct names; reflexivity|].
  destruct names as [|n names]; simpl; [reflexivity|].
  rewrite IH. apply keys_fill_cell.
Qed.

Lemma dict_get_register (g : pystr) (names : list pystr)
  (d : dict GroupSchedule) :
  dict_get g (register_groups names d) =
  match dict_get g d with
  | Some v => Some v
  | None => if existsb (str_eqb g) names then Some [] else None
  end.
Proof.
  unfold register_groups. revert d.
  induction names as [|n names IH]; intros d; simpl.
  - destruct (dict_get g d); reflexivity.
  - rewrite IH. unfold dict_mem. destruct (dict_get n d) eqn:Gn.
    + destruct (dict_get g d) eqn:Gg; [reflexivity|].
      destruct (str_eqb g n) eqn:E; [|reflexivity].
      apply str_eqb_eq in E; subst n. congruence.
    + rewrite dict_get_set. destruct (str_eqb g n) eqn:E; simpl.
      * apply str_eqb_eq in E; subst n. rewrite Gn; reflexivity.
      * reflexivity.
Qed.

Lemma NoDup_register (names : list pystr) (d : dict GroupSchedule) :
  NoDup (keys d) -> NoDup (keys (register_groups names d)).
Proof.
  unfold register_groups. revert d.
  induction names as [|n names IH]; intros d N; simpl; [exact N|].
  apply IH. destruct (dict_mem n d); [exact N | apply NoDup_dict_set, N].
Qed.

(** One block: the dict after its header and content rows. *)
Lemma dict_get_block (g : pystr) (names : list pystr)
  (cells : list BigCell) (d : dict GroupSchedule) :
  dict_get g (fill_cells names cells (register_groups names d)) =
  match dict_get g d with
  | Some v => Some (v ++ block_entries g names cells)
  | None =>
      if existsb (str_eqb g) names
      then Some (block_entries g names cells)
      else None
  end.
Proof.
  rewrite dict_get_fill_cells, dict_get_register.
  destruct (dict_get g d); [reflexivity|].
  destruct (existsb (str_eqb g) names); reflexivity.
Qed.

Lemma parse_rows_no_headers (rows : list Tr) (d : dict GroupSchedule) :
  (forall row, In row rows -> groups_in_block row = []) ->
  parse_rows rows d = d.
Proof.
  induction rows as [|row rest IH]; intros No; simpl; [reflexivity|].
  rewrite (No row) by (left; reflexivity). cbn [truthy].
  destruct (truthy (tr_ths row)); apply IH; intros r I; apply No; right; exact I.
Qed.

(** The loop never drops or rewrites what the dict already holds: every
    key keeps its entries as a prefix, and keys stay unique. *)
Lemma parse_rows_extends (rows : list Tr) :
  forall d : dict GroupSchedule,
    NoDup (keys d) ->
    NoDup (keys (parse_rows rows d))
    /\ forall g es,
         dict_get g d = Some es ->
         exists later, dict_get g (parse_rows rows d) = Some (es ++ later).
Proof.
  assert (Base : forall d : dict GroupSchedule,
             NoDup (keys d) ->
             NoDup (keys d)
             /\ forall g es, dict_get g d = Some es ->
                  exists later, dict_get g d = Some (es ++ later)).
  { intros d N; split; [exact N|]. intros g es G; exists [].
    rewrite app_nil_r; exact G. }
  remember (length rows) as n eqn:Len.
  assert (Le : (length rows <= n)%nat) by lia. clear Len.
  revert rows Le. induction n as [|n IH]; intros rows Le d N.
  - destruct rows; [|simpl in Le; lia]. apply Base, N.
  - destruct rows as [|row rest]; [apply Base, N|]. simpl in Le.
    cbn [parse_rows].
    destruct (truthy (tr_ths row)); [|apply IH; [lia | exact N]].
    destruct (truthy (groups_in_block row)); [|apply IH; [lia | exact N]].
    pose proof (NoDup_register (groups_in_block row) d N) as Nr.
    destruct rest as [|schedule_row rest'].
    + split; [exact Nr|]. intros g es G; exists [].
      rewrite dict_get_register, G, app_nil_r; reflexivity.
    + simpl in Le.
      destruct (IH rest' ltac:(lia)
                  (fill_cells (groups_in_block row) (tr_tds schedule_row)
                     (register_groups (groups_in_block row) d)))
        as [N' P'].
      { rewrite keys_fill_cells; exact Nr. }
      split; [exact N'|]. intros g es G.
      destruct (P' g (es ++ block_entries g (groups_in_block row)
                              (tr_tds schedule_row))) as [later E].
      { rewrite dict_get_block, G; reflexivity. }
      exists (block_entries g (groups_in_block row) (tr_tds schedule_row)
              ++ later).
      rewrite E, app_assoc; reflexivity.
Qed.

End ParserFacts.

Section ParserClaims.
Context {U : Unicode} {H : HtmlParser}.

(** A request that raises is caught by [get_schedule] and gives [None]. *)
Lemma get_schedule_fetch_failed (group_filter : option pystr) :
  get_schedule FetchFailed group_filter = None.
Proof. reflexivity. Qed.

(** C7. [get_schedule] returns [None] when the response text is empty or
    holds whitespace only, and when the page has no table of the
    recognised class; neither case raises or yields a snapshot. *)
Theorem get_schedule_unavailable :
  forall (text : pystr) (group_filter : option pystr),
    Forall (fun c => isspace c = true) text
    \/ soup_table (BeautifulSoup text) = None ->
    get_schedule (Response text) group_filter = None.
Proof.
  intros text gf [Blank | NoTable]; unfold get_schedule.
  - rewrite (strip_all_space text Blank). simpl (str_eqb [] []).
    rewrite orb_true_r. reflexivity.
  - destruct (negb (truthy text) || str_eqb (strip text) []); [reflexivity|].
    rewrite NoTable. reflexivity.
Qed.

(** C8. A page that has the table, none of whose header cells passes the
    group-name test (3 to 15 characters, a letter and a digit), parses
    to a snapshot with an empty groups mapping, not to [None]. The call
    is the one without a group filter. *)
Theorem get_schedule_no_group_headers :
  forall (text : pystr) (rows : list Tr) (group_filter : option pystr),
    filter_given group_filter = None ->
    strip text <> [] ->
    soup_table (BeautifulSoup text) = Some rows ->
    (forall row th,
       In row rows -> In th (tr_ths row) ->
       ~ (3 <= len th <= 15
          /\ (exists c, In c th /\ isalpha c = true)
          /\ (exists c, In c th /\ isdigit c = true))) ->
    get_schedule (Response text) group_filter =
    Some {| date := Some (parse_date (BeautifulSoup text));
            groups := Some [] |}.
Proof.
  intros text rows gf NoFilter NonBlank Table NoName. unfold get_schedule.
  assert (T : truthy text = true).
  { apply truthy_true. intros ->. apply NonBlank, strip_nil. }
  assert (S : str_eqb (strip text) [] = false)
    by (apply str_eqb_neq; exact NonBlank).
  rewrite T, S, Table, NoFilter. simpl.
  rewrite parse_rows_no_headers; [reflexivity|].
  intros row I. unfold groups_in_block.
  destruct (filter is_group_name (tr_ths row)) as [|th ths] eqn:F;
    [reflexivity|].
  exfalso.
  assert (Ith : In th (filter is_group_name (tr_ths row)))
    by (rewrite F; left; reflexivity).
  apply filter_In in Ith. destruct Ith as [Ith G].
  apply (NoName row th I Ith). apply is_group_name_spec; exact G.
Qed.

(** C6. With a (non-empty) group filter [g], [get_schedule] follows the
    unfiltered parse: it is [None] when that is [None] or when [g] is not
    a key of the parsed groups, and otherwise the snapshot with the same
    date whose groups mapping holds [g] alone, with its entries. *)
Theorem get_schedule_group_filter :
  forall (fetched : Fetched) (g : pystr),
    g <> [] ->
    match get_schedule fetched None with
    | None => get_schedule fetched (Some g) = None
    | Some parsed =>
        exists gs,
          groups parsed = Some gs
          /\ match dict_get g gs with
             | None => get_schedule fetched (Some g) = None
             | Some entries =>
                 get_schedule fetched (Some g) =
                 Some {| date := date parsed; groups := Some [(g, entries)] |}
             end
    end.
Proof.
  intros fetched g Ng. unfold get_schedule.
  destruct fetched as [|text]; [reflexivity|].
  destruct (negb (truthy text) || str_eqb (strip text) []); [reflexivity|].
  destruct (soup_table (BeautifulSoup text)) as [rows|]; [|reflexivity].
  assert (F : filter_given (Some g) = Some g).
  { unfold filter_given. apply truthy_true in Ng. rewrite Ng. reflexivity. }
  rewrite F. cbn [filter_given].
  exists (parse_rows rows []). split; [reflexivity|].
  cbn [date]. destruct (dict_get g (parse_rows rows [])); reflexivity.
Qed.

(** C5. For a nested table with a content cell, no entry is appended
    exactly when the subject (teacher text removed and trimmed) contains
    the marker нет in lower case and is shorter than 15 characters; a
    subject of 15 characters or more is kept whatever it contains. The
    group's schedule receives, in order, the entries of the tables before
    it, its own entry if kept, and those of the tables after it. *)
Theorem placeholder_entry_dropped :
  forall (inner_table : InnerTable) (content_td : ContentTd),
    it_content inner_table = Some content_td ->
    (lesson_entry inner_table = None <->
       (exists pre post,
          lower (cell_subject content_td) = pre ++ no_class_marker ++ post)
       /\ len (cell_subject content_td) < 15)
    /\ (15 <= len (cell_subject content_td) ->
        exists e,
          lesson_entry inner_table = Some e
          /\ subject e = cell_subject content_td
          /\ teacher e = cell_teacher content_td)
    /\ (forall g before after d es,
          dict_get g d = Some es ->
          dict_get g (fill_cell g (before ++ inner_table :: after) d) =
          Some (es ++ cell_entries before
                   ++ match lesson_entry inner_table with
                      | Some e => [e]
                      | None => []
                      end
                   ++ cell_entries after)).
Proof.
  intros it c C. split; [|split].
  - unfold lesson_entry. rewrite C. unfold is_placeholder.
    destruct (str_in no_class_marker (lower (cell_subject c))) eqn:M;
      destruct (len (cell_subject c) <? 15) eqn:S; cbn [andb].
    + apply str_in_spec in M. apply Z.ltb_lt in S. tauto.
    + apply Z.ltb_ge in S. split; [discriminate | intros [_ Lt]; lia].
    + split; [discriminate|]. intros [M' _]. apply str_in_spec in M'.
      congruence.
    + split; [discriminate|]. intros [M' _]. apply str_in_spec in M'.
      congruence.
  - intros Long. unfold lesson_entry. rewrite C. unfold is_placeholder.
    assert (S : (len (cell_subject c) <? 15) = false)
      by (apply Z.ltb_ge; exact Long).
    rewrite S, andb_false_r. eexists; repeat split.
  - intros g before after d es G.
    rewrite dict_get_fill_cell, str_eqb_refl, G. simpl.
    unfold cell_entries. rewrite flat_map_app. simpl.
    rewrite <- ?app_assoc. reflexivity.
Qed.

(** C9. Whatever the dict holds when the loop reaches a row, the rest of
    the parse keeps every key once and keeps the entries of every group
    as a prefix of its final schedule. When the row is a block header
    naming a group already present, the entries of this block's columns
    for that group follow the earlier ones, and later blocks follow them. *)
Theorem repeated_group_appends :
  forall (rows : list Tr) (d : dict GroupSchedule) (g : pystr)
         (es : GroupSchedule),
    NoDup (keys d) ->
    dict_get g d = Some es ->
    NoDup (keys (parse_rows rows d))
    /\ (exists later, dict_get g (parse_rows rows d) = Some (es ++ later))
    /\ (forall row schedule_row rest,
          rows = row :: schedule_row :: rest ->
          In g (groups_in_block row) ->
          exists later,
            dict_get g (parse_rows rows d) =
            Some (es ++ block_entries g (groups_in_block row)
                          (tr_tds schedule_row) ++ later)).
Proof.
  intros rows d g es N G.
  destruct (parse_rows_extends rows d N) as [N' P'].
  split; [exact N'|]. split; [apply P', G|].
  intros row schedule_row rest -> I. cbn [parse_rows].
  assert (Tn : truthy (groups_in_block row) = true).
  { apply truthy_true. intros E; rewrite E in I; exact I. }
  assert (Th : truthy (tr_ths row) = true).
  { apply truthy_true. intros E. unfold groups_in_block in I.
    rewrite E in I; exact I. }
  rewrite Th, Tn.
  destruct (parse_rows_extends rest
              (fill_cells (groups_in_block row) (tr_tds schedule_row)
                 (register_groups (groups_in_block row) d)))
    as [_ P''].
  { rewrite keys_fill_cells. apply NoDup_register, N. }
  destruct (P'' g (es ++ block_entries g (groups_in_block row)
                           (tr_tds schedule_row))) as [later E].
  { rewrite dict_get_block, G; reflexivity. }
  exists later. rewrite E, <- app_assoc; reflexivity.
Qed.

End ParserClaims.

(* ------------------------------------------------------------------ *)
(** ** The parser on the worked pages *)

Lemma get_schedule_unavailable_witness :
  Forall (fun c => @isspace basic_unicode c = true) [32; 10; 9; 32]
  /\ @get_schedule basic_unicode example_parser
       (Response [32; 10; 9; 32]) None = None
  /\ soup_table (@BeautifulSoup example_parser page_no_table) = None
  /\ @get_schedule basic_unicode example_parser
       (Response page_no_table) None = None
  /\ @get_schedule basic_unicode example_parser (Response []) None = None.
Proof.
  assert (B : Forall (fun c => @isspace basic_unicode c = true)
                [32; 10; 9; 32]) by (repeat constructor).
  assert (T : soup_table (@BeautifulSoup example_parser page_no_table) = None)
    by (vm_compute; reflexivity).
  split; [exact B|]. split.
  { apply (@get_schedule_unavailable basic_unicode example_parser).
    left; exact B. }
  split; [exact T|]. split.
  { apply (@get_schedule_unavailable basic_unicode example_parser).
    right; exact T. }
  apply (@get_schedule_unavailable basic_unicode example_parser).
  left; constructor.
Defined.

Lemma get_schedule_no_group_headers_witness :
  @strip basic_unicode page_no_groups <> []
  /\ @get_schedule basic_unicode example_parser (Response page_no_groups) None
     = Some {| date := Some (u "12 ноября"); groups := Some [] |}.
Proof.
  assert (S : @strip basic_unicode page_no_groups <> [])
    by (vm_compute; discriminate).
  split; [exact S|].
  refine (eq_trans
            (@get_schedule_no_group_headers basic_unicode example_parser
               page_no_groups
               [ {| tr_ths := [u "Пара"]; tr_tds := [] |};
                 {| tr_ths := []; tr_tds := [[]] |} ]
               None eq_refl S _ _) _).
  - vm_compute; reflexivity.
  - intros row th [<- | [<- | []]] Ith; simpl in Ith; [|destruct Ith].
    destruct Ith as [<- | []].
    intros (_ & _ & c & Ic & D). vm_compute in Ic.
    repeat (destruct Ic as [<- | Ic]; [vm_compute in D; discriminate D|]).
    exact Ic.
  - vm_compute; reflexivity.
Defined.

Lemma get_schedule_group_filter_witness :
  u "ИС-22" <> []
  /\ @get_schedule basic_unicode example_parser (Response page_two_blocks)
       (Some (u "ИС-22"))
     = Some {| date := Some (u "Расписание на 12 ноября");
               groups := Some [(u "ИС-22", [entry_chemistry])] |}
  /\ @get_schedule basic_unicode example_parser (Response page_two_blocks)
       (Some (u "ИС-99")) = None.
Proof.
  assert (N22 : u "ИС-22" <> []) by (vm_compute; discriminate).
  assert (N99 : u "ИС-99" <> []) by (vm_compute; discriminate).
  split; [exact N22|]. split.
  - pose proof (@get_schedule_group_filter basic_unicode example_parser
                  (Response page_two_blocks) (u "ИС-22") N22) as W.
    vm_compute in W. destruct W as [gs [E W]].
    injection E as <-. vm_compute in W. vm_compute. exact W.
  - pose proof (@get_schedule_group_filter basic_unicode example_parser
                  (Response page_two_blocks) (u "ИС-99") N99) as W.
    vm_compute in W. destruct W as [gs [E W]].
    injection E as <-. vm_compute in W. vm_compute. exact W.
Defined.

Lemma placeholder_entry_dropped_witness :
  @lesson_entry basic_unicode (lesson "2" "нет" None) = None
  /\ @lesson_entry basic_unicode lesson_internet
     = Some {| pair_number := u "4";
               subject := u "Интернет-технологии";
               teacher := u "Петров" |}
  /\ len (u "Интернет-технологии") = 19.
Proof.
  split; [|split; [|reflexivity]].
  - destruct (@placeholder_entry_dropped basic_unicode
                (lesson "2" "нет" None) _ eq_refl) as [Drop _].
    apply Drop. split.
    + exists [], []. vm_compute; reflexivity.
    + vm_compute; reflexivity.
  - destruct (@placeholder_entry_dropped basic_unicode
                lesson_internet _ eq_refl) as [_ [Keep _]].
    destruct Keep as [e [E [Es Et]]].
    + vm_compute; discriminate.
    + rewrite E. destruct e as [n sbj t]. simpl in Es, Et. subst sbj t.
      vm_compute in E. injection E as <-. vm_compute; reflexivity.
Defined.

Lemma repeated_group_appends_witness :
  NoDup (keys after_first_block)
  /\ @parse_rows basic_unicode second_block_rows after_first_block
     = [(u "ИС-21", [entry_maths; entry_history]);
        (u "ИС-22", [entry_chemistry])]
  /\ (exists later,
        dict_get (u "ИС-21")
          (@parse_rows basic_unicode second_block_rows after_first_block)
        = Some ([entry_maths] ++ later))
  /\ (exists later,
        dict_get (u "ИС-21")
          (@parse_rows basic_unicode second_block_rows after_first_block)
        = Some ([entry_maths] ++ [entry_history] ++ later))
  /\ (exists rows,
        soup_table (@BeautifulSoup example_parser page_two_blocks) = Some rows
        /\ @parse_rows basic_unicode rows []
           = [(u "ИС-21", [entry_maths; entry_history]);
              (u "ИС-22", [entry_chemistry])]).
Proof.
  assert (N : NoDup (keys after_first_block))
    by (apply distinct_NoDup; vm_compute; reflexivity).
  destruct (@repeated_group_appends basic_unicode second_block_rows
              after_first_block (u "ИС-21") [entry_maths] N eq_refl)
    as [_ [P Block]].
  split; [exact N|]. split; [vm_compute; reflexivity|].
  split; [exact P|]. split.
  - destruct (Block _ _ _ eq_refl) as [later E].
    + vm_compute. left; reflexivity.
    + exists later. rewrite E. vm_compute; reflexivity.
  - eexists; split; vm_compute; reflexivity.
Defined.

(* ================================================================== *)
(** * Change monitor: theorems *)

Section MonitorFacts.
Context {U : Unicode} {H : HtmlParser} {D : Digest}.

Lemma diff_step_changed (previous : dict pystr)
  (acc : dict pystr * list pystr) (item : pystr * GroupSchedule) (g : pystr) :
  In g (snd (diff_step previous acc item)) <->
  In g (snd acc) \/ (g = fst item /\ is_changed previous (fst item) (snd item)).
Proof.
  unfold diff_step, is_changed. destruct item as [k pairs]; cbn [fst snd].
  destruct (dict_get k previous) as [old|] eqn:G.
  - destruct (str_eqb old (group_hash pairs)) eqn:E; cbn [negb snd].
    + apply str_eqb_eq in E. split; [auto|].
      intros [I | [_ [[old' [[= <-] Ne]] | [[=] _]]]]; [exact I | congruence].
    + apply str_eqb_neq in E. rewrite in_app_iff; simpl. split.
      * intros [I | [<- | []]]; [auto|]. right; split; [reflexivity|].
        left; exists old; auto.
      * intros [I | [-> _]]; auto.
  - destruct (truthy previous) eqn:T; cbn [snd].
    + apply truthy_true in T. rewrite in_app_iff; simpl. split.
      * intros [I | [<- | []]]; auto.
      * intros [I | [-> _]]; auto.
    + apply truthy_false in T. split; [auto|].
      intros [I | [_ [[old [[=] _]] | [_ Ne]]]]; [exact I | congruence].
Qed.

Lemma diff_fold_changed (previous : dict pystr) (gs : dict GroupSchedule)
  (acc : dict pystr * list pystr) (g : pystr) :
  In g (snd (fold_left (diff_step previous) gs acc)) <->
  In g (snd acc)
  \/ exists pairs, In (g, pairs) gs /\ is_changed previous g pairs.
Proof.
  revert acc; induction gs as [|[k pairs] gs IH]; intros acc; simpl.
  - split; [auto | intros [I | [? [[] _]]]; exact I].
  - rewrite IH, diff_step_changed; cbn [fst snd]. split.
    + intros [[I | [-> C]] | [ps [I C]]]; eauto.
    + intros [I | [ps [[[= <- <-] | I] C]]]; eauto.
Qed.

(** C3. After a successful parse with groups [gs], a group is in the
    changed list exactly when it is a group of the snapshot and either
    the prior map holds it with a hash other than the new one, or the
    prior map does not hold it and is not empty. With an empty prior
    map, as on the first successful pass, the list is empty. *)
Theorem changed_groups_iff :
  forall (previous : dict pystr) (gs : dict GroupSchedule),
    (forall g,
       In g (changed_groups previous gs) <->
       exists pairs,
         In (g, pairs) gs
         /\ ((exists old,
                dict_get g previous = Some old /\ old <> group_hash pairs)
             \/ (dict_get g previous = None /\ previous <> [])))
    /\ changed_groups [] gs = []
    /\ changed_groups (previous_hashes initial_state) gs = [].
Proof.
  intros previous gs.
  assert (Iff : forall prev g,
             In g (changed_groups prev gs) <->
             exists pairs, In (g, pairs) gs /\ is_changed prev g pairs).
  { intros prev g. unfold changed_groups, diff_groups.
    rewrite diff_fold_changed; simpl. tauto. }
  assert (Cold : changed_groups [] gs = []).
  { destruct (changed_groups [] gs) as [|g l] eqn:E; [reflexivity|].
    exfalso. assert (I : In g (changed_groups [] gs))
      by (rewrite E; left; reflexivity).
    apply Iff in I. destruct I as [pairs [_ [[old [G _]] | [_ Ne]]]].
    - discriminate G.
    - apply Ne; reflexivity. }
  split; [|split; exact Cold].
  intros g. apply Iff.
Qed.

(** A pass whose parse is unavailable leaves the state as it was. *)
Lemma monitor_pass_unavailable (subscribers_of : World -> list Subscriber)
  (w : World) (fetched : Fetched) (st : MonitorState) :
  get_schedule fetched None = None ->
  monitor_pass subscribers_of w fetched st = st.
Proof. intros E. unfold monitor_pass. rewrite E. reflexivity. Qed.

(** X5. During an outage nothing changes: passes whose parse is
    unavailable (a failed request, an empty page, a page without the
    table) leave the held hashes, and the whole state, as they were. *)
Lemma run_monitor_unavailable (ticks : list (World * Fetched))
  (st : MonitorState) :
  (forall tick, In tick ticks -> get_schedule (snd tick) None = None) ->
  run_monitor ticks st = st.
Proof.
  unfold run_monitor. induction ticks as [|tick ticks IH]; intros Un;
    [reflexivity|]. cbn [fold_left]. unfold monitor_schedule at 2.
  rewrite monitor_pass_unavailable by (apply Un; left; reflexivity).
  apply IH. intros t I; apply Un; right; exact I.
Qed.

(** In [schedule_bot.py] the loop over the subscribers ends at its first
    element while [user_id] is unassigned. *)
Lemma notify_all_int (w : World) (gs : dict GroupSchedule)
  (changed : list pystr) (n : Z) (rest : list Z) (st : MonitorState) :
  user_id st = None ->
  notify_all w gs changed (map PyInt (n :: rest)) st
  = (st, Some UnboundLocalError).
Proof.
  intros Unbound. simpl. unfold notify_subscriber. simpl.
  rewrite Unbound. reflexivity.
Qed.

(** C1, in [schedule_bot.py]. With a non-empty changed list and at least
    one subscriber, the pass makes no call of [send_message] and does
    not replace [previous_hashes]: the state after the pass is the state
    before it. [get_all_subscribers] returns integers, so the first
    [subscriber['user_id']] raises; the handler of the per-subscriber
    [try] reads [user_id], which was never assigned, and the exception
    raised there is caught only by the handler of the whole pass. *)
Theorem monitor_schedule_aborts :
  forall (w : World) (fetched : Fetched) (st : MonitorState)
         (schedule : ScheduleData) (gs : dict GroupSchedule),
    user_id st = None ->
    get_schedule fetched None = Some schedule ->
    groups schedule = Some gs ->
    changed_groups (previous_hashes st) gs <> [] ->
    subscriptions w <> [] ->
    monitor_schedule w fetched st = st.
Proof.
  intros w fetched st schedule gs Unbound Parsed G Changed Subs.
  unfold monitor_schedule, monitor_pass. rewrite Parsed, G.
  unfold changed_groups in Changed.
  destruct (diff_groups (previous_hashes st) gs) as [current changed].
  cbn [snd] in Changed. apply truthy_true in Changed. rewrite Changed.
  unfold get_all_subscribers.
  destruct (subscriptions w) as [|n rest]; [congruence|].
  rewrite notify_all_int by exact Unbound. reflexivity.
Qed.

(** X6. [schedule_bot.py] never calls [send_message]: along any run
    from the initial state, [user_id] stays unassigned and the log of
    calls stays empty. *)
Lemma monitor_schedule_never_sends (ticks : list (World * Fetched)) :
  user_id (run_monitor ticks initial_state) = None
  /\ sent (run_monitor ticks initial_state) = [].
Proof.
  unfold run_monitor.
  assert (Inv : forall st,
             user_id st = None /\ sent st = [] ->
             user_id (fold_left
                        (fun st tick =>
                           monitor_schedule (fst tick) (snd tick) st)
                        ticks st) = None
             /\ sent (fold_left
                        (fun st tick =>
                           monitor_schedule (fst tick) (snd tick) st)
                        ticks st) = []).
  { induction ticks as [|[w fetched] ticks IH]; intros st [Un Se];
      cbn [fold_left fst snd]; [auto|].
    apply IH. unfold monitor_schedule, monitor_pass.
    destruct (get_schedule fetched None) as [schedule|]; [|auto].
    destruct (groups schedule) as [gs|]; [|auto].
    destruct (diff_groups (previous_hashes st) gs) as [current changed].
    destruct (truthy changed); [|auto].
    unfold get_all_subscribers.
    destruct (subscriptions w) as [|n rest]; [simpl; auto|].
    rewrite notify_all_int by exact Un. auto. }
  apply Inv. split; reflexivity.
Qed.

Lemma send_groups_log (w : World) (gs : dict GroupSchedule) (uid : Z)
  (l : list pystr) (log : list Attempt) :
  fst (send_groups w gs uid l log) = log ++ fst (send_groups w gs uid l []).
Proof.
  revert log; induction l as [|g l IH]; intros log; simpl.
  - rewrite app_nil_r; reflexivity.
  - destruct (dict_mem g gs); [|apply IH].
    destruct (send_fails w uid g); simpl; [reflexivity|].
    rewrite IH, (IH [_]), app_assoc. reflexivity.
Qed.

Lemma notify_subscriber_row (w : World) (gs : dict GroupSchedule)
  (changed : list pystr) (uid : Z) (st : MonitorState) :
  notify_subscriber w gs changed (PyRow uid) st
  = ({| previous_hashes := previous_hashes st;
        user_id := Some uid;
        sent := sent st ++ subscriber_attempts w gs changed uid |}, None).
Proof.
  unfold notify_subscriber, subscriber_attempts; cbn [getitem_user_id].
  destruct (filter _ (user_all_groups w uid)) as [|g l] eqn:F; cbn [truthy negb].
  - simpl. rewrite app_nil_r. reflexivity.
  - pose proof (send_groups_log w gs uid (g :: l) (sent st)) as E.
    destruct (send_groups w gs uid (g :: l) (sent st)) as [log e].
    cbn [fst] in E. rewrite E. reflexivity.
Qed.

Lemma notify_all_rows (w : World) (gs : dict GroupSchedule)
  (changed : list pystr) (l : list Z) (st : MonitorState) :
  notify_all w gs changed (map PyRow l) st
  = ({| previous_hashes := previous_hashes st;
        user_id := fold_left (fun _ uid => Some uid) l (user_id st);
        sent := sent st ++ flat_map (subscriber_attempts w gs changed) l |},
     None).
Proof.
  revert st; induction l as [|uid l IH]; intros st.
  - simpl. rewrite app_nil_r. destruct st; reflexivity.
  - cbn [map notify_all]. rewrite notify_subscriber_row, IH.
    cbn [previous_hashes user_id sent flat_map fold_left].
    rewrite app_assoc. reflexivity.
Qed.

(** X7. In [schedule_bot_backup.py] a pass whose parse succeeds always
    ends with the new hashes held, and serves every subscriber: the calls of
    [send_message] are those of each subscriber in turn, a subscriber's
    calls ending at its first failure. *)
Lemma monitor_schedule_backup_replaces (w : World) (fetched : Fetched)
  (st : MonitorState) (schedule : ScheduleData) (gs : dict GroupSchedule) :
  get_schedule fetched None = Some schedule ->
  groups schedule = Some gs ->
  previous_hashes (monitor_schedule_backup w fetched st)
  = fst (diff_groups (previous_hashes st) gs)
  /\ sent (monitor_schedule_backup w fetched st)
     = sent st
       ++ flat_map
            (subscriber_attempts w gs (changed_groups (previous_hashes st) gs))
            (if truthy (changed_groups (previous_hashes st) gs)
             then subscriptions w else []).
Proof.
  intros Parsed G. unfold monitor_schedule_backup, monitor_pass.
  rewrite Parsed, G. unfold changed_groups.
  destruct (diff_groups (previous_hashes st) gs) as [current changed].
  cbn [fst snd]. destruct (truthy changed).
  - unfold get_all_subscribers_backup. rewrite notify_all_rows.
    split; reflexivity.
  - simpl. rewrite app_nil_r. split; reflexivity.
Qed.

(** X8. In [schedule_bot_backup.py] a subscriber for whom no call of
    [send_message] fails is sent every changed group it tracks that the
    snapshot holds, in the order [get_user_all_groups] lists them, and
    nothing else. *)
Lemma subscriber_attempts_all_sent (w : World) (gs : dict GroupSchedule)
  (changed : list pystr) (uid : Z) :
  (forall g, send_fails w uid g = false) ->
  subscriber_attempts w gs changed uid
  = map (fun g => {| att_chat := uid; att_group := g; att_ok := true |})
      (filter (fun g => dict_mem g gs)
         (filter (fun g => existsb (str_eqb g) changed)
            (user_all_groups w uid))).
Proof.
  intros Ok. unfold subscriber_attempts.
  induction (filter _ (user_all_groups w uid)) as [|g l IH]; [reflexivity|].
  simpl. destruct (dict_mem g gs); [|exact IH].
  rewrite Ok, send_groups_log, IH. reflexivity.
Qed.

End MonitorFacts.

(* ------------------------------------------------------------------ *)
(** ** The monitor on the worked pages *)

(** The specification's cold-start example: nothing is reported on the
    first pass nor on a second pass over the same content; after the
    subject of a lesson of ИС-21 is altered, ИС-21 alone is reported. *)
Example cold_start_then_one_change :
  @changed_groups written_out [] groups_parsed = []
  /\ @changed_groups written_out
       (fst (@diff_groups written_out [] groups_parsed)) groups_parsed = []
  /\ @changed_groups written_out
       (fst (@diff_groups written_out [] groups_parsed)) groups_altered
     = [u "ИС-21"].
Proof. repeat split; vm_compute; reflexivity. Qed.

Lemma monitor_schedule_aborts_witness :
  @changed_groups written_out (previous_hashes warm_state) groups_parsed
  = [u "ИС-21"; u "ИС-22"]
  /\ deliveries_due two_subscribers [u "ИС-21"; u "ИС-22"]
     = [(101, u "ИС-21"); (101, u "ИС-22"); (102, u "ИС-22")]
  /\ @monitor_schedule basic_unicode example_parser written_out
       two_subscribers (Response page_two_blocks) warm_state = warm_state.
Proof.
  split; [vm_compute; reflexivity|]. split; [vm_compute; reflexivity|].
  apply (@monitor_schedule_aborts basic_unicode example_parser written_out
           two_subscribers (Response page_two_blocks) warm_state
           {| date := Some (u "Расписание на 12 ноября");
              groups := Some groups_parsed |}
           groups_parsed).
  - reflexivity.
  - vm_compute; reflexivity.
  - reflexivity.
  - vm_compute; discriminate.
  - vm_compute; discriminate.
Defined.

(** The same pass in [schedule_bot_backup.py], whose subscribers are
    rows: every due message is sent and the hashes are replaced. *)
Example monitor_schedule_backup_delivers :
  @monitor_schedule_backup basic_unicode example_parser written_out
    two_subscribers (Response page_two_blocks) warm_state
  = {| previous_hashes := fst (@diff_groups written_out [] groups_parsed);
       user_id := Some 102;
       sent := [ {| att_chat := 101; att_group := u "ИС-21"; att_ok := true |};
                 {| att_chat := 101; att_group := u "ИС-22"; att_ok := true |};
                 {| att_chat := 102; att_group := u "ИС-22"; att_ok := true |} ]
    |}.
Proof. vm_compute; reflexivity. Qed.

(** There, a message that fails ends the messages of that subscriber:
    101 is not sent ИС-22 after the failure on ИС-21; 102 is served and
    the hashes are replaced. *)
Example monitor_schedule_backup_one_failure :
  @monitor_schedule_backup basic_unicode example_parser written_out
    one_failure (Response page_two_blocks) warm_state
  = {| previous_hashes := fst (@diff_groups written_out [] groups_parsed);
       user_id := Some 102;
       sent := [ {| att_chat := 101; att_group := u "ИС-21"; att_ok := false |};
                 {| att_chat := 102; att_group := u "ИС-22"; att_ok := true |} ]
    |}.
Proof. vm_compute; reflexivity. Qed.

Lemma monitor_schedule_backup_replaces_witness :
  previous_hashes
    (@monitor_schedule_backup basic_unicode example_parser written_out
       one_failure (Response page_two_blocks) warm_state)
  = [(u "ИС-21", @group_hash written_out [entry_maths; entry_history]);
     (u "ИС-22", @group_hash written_out [entry_chemistry])]
  /\ sent
       (@monitor_schedule_backup basic_unicode example_parser written_out
          one_failure (Response page_two_blocks) warm_state)
     = [ {| att_chat := 101; att_group := u "ИС-21"; att_ok := false |};
         {| att_chat := 102; att_group := u "ИС-22"; att_ok := true |} ].
Proof.
  destruct (@monitor_schedule_backup_replaces basic_unicode example_parser
              written_out one_failure (Response page_two_blocks) warm_state
              {| date := Some (u "Расписание на 12 ноября");
                 groups := Some groups_parsed |}
              groups_parsed) as [P S].
  - vm_compute; reflexivity.
  - reflexivity.
  - split; [rewrite P | rewrite S]; vm_compute; reflexivity.
Defined.

(* ================================================================== *)
(** * Table parser: further properties *)

Section ParserInvariant.
Context {U : Unicode} {H : HtmlParser}.

Lemma dict_set_fresh {V : Type} (k : pystr) (v : V) (d : dict V) :
  dict_get k d = None -> dict_set k v d = d ++ [(k, v)].
Proof.
  induction d as [|[k' v'] d IH]; simpl; [reflexivity|].
  destruct (str_eqb k k'); [discriminate|]. intros G. rewrite IH by exact G.
  reflexivity.
Qed.

Lemma well_formed_nil : well_formed_groups [].
Proof. split; constructor. Qed.

Lemma well_formed_register (names : list pystr) (d : dict GroupSchedule) :
  Forall (fun g => is_group_name g = true) names ->
  well_formed_groups d -> well_formed_groups (register_groups names d).
Proof.
  intros Names [N F]. split; [apply NoDup_register, N|].
  unfold register_groups. revert d N F.
  induction Names as [|g names G _ IH]; intros d N F; simpl; [exact F|].
  unfold dict_mem. destruct (dict_get g d) eqn:E.
  - apply IH; assumption.
  - apply IH.
    + apply NoDup_dict_set, N.
    + rewrite dict_set_fresh by exact E. apply Forall_app. split; [exact F|].
      constructor; [|constructor]. split; [exact G | constructor].
Qed.

Lemma lesson_entry_kept (inner_table : InnerTable) (e : ClassEntry) :
  lesson_entry inner_table = Some e -> is_placeholder (subject e) = false.
Proof.
  unfold lesson_entry. destruct (it_content inner_table) as [c|]; [|discriminate].
  destruct (is_placeholder (cell_subject c)) eqn:P; [discriminate|].
  intros [= <-]. exact P.
Qed.

Lemma well_formed_append (k : pystr) (e : ClassEntry)
  (d : dict GroupSchedule) :
  is_placeholder (subject e) = false ->
  well_formed_groups d -> well_formed_groups (dict_append k e d).
Proof.
  intros E [N F]. split; [rewrite keys_dict_append; exact N|].
  clear N. induction F as [|[k' v] d [G Fv] F IH]; simpl; [constructor|].
  destruct (str_eqb k k').
  - constructor; [|exact F]. split; [exact G|].
    apply Forall_app. split; [exact Fv | repeat constructor; exact E].
  - constructor; [split; assumption | exact IH].
Qed.

Lemma well_formed_fill_cell (g : pystr) (big_cell : BigCell)
  (d : dict GroupSchedule) :
  well_formed_groups d -> well_formed_groups (fill_cell g big_cell d).
Proof.
  unfold fill_cell. revert d.
  induction big_cell as [|it cell IH]; intros d W; simpl; [exact W|].
  apply IH. destruct (lesson_entry it) as [e|] eqn:E; [|exact W].
  apply well_formed_append; [eapply lesson_entry_kept; exact E | exact W].
Qed.

Lemma well_formed_fill_cells (names : list pystr) (cells : list BigCell)
  (d : dict GroupSchedule) :
  well_formed_groups d -> well_formed_groups (fill_cells names cells d).
Proof.
  revert names d. induction cells as [|c cells IH]; intros names d W;
    [destruct names; exact W|].
  destruct names as [|n names]; simpl; [exact W|].
  apply IH, well_formed_fill_cell, W.
Qed.

Lemma groups_in_block_named (row : Tr) :
  Forall (fun g => is_group_name g = true) (groups_in_block row).
Proof.
  apply Forall_forall. intros g I. unfold groups_in_block in I.
  apply filter_In in I. apply I.
Qed.

Lemma well_formed_parse_rows (rows : list Tr) :
  forall d, well_formed_groups d -> well_formed_groups (parse_rows rows d).
Proof.
  remember (length rows) as n eqn:Len.
  assert (Le : (length rows <= n)%nat) by lia. clear Len.
  revert rows Le. induction n as [|n IH]; intros rows Le d W.
  - destruct rows; [exact W | simpl in Le; lia].
  - destruct rows as [|row rest]; [exact W|]. simpl in Le. cbn [parse_rows].
    destruct (truthy (tr_ths row)); [|apply IH; [lia | exact W]].
    destruct (truthy (groups_in_block row)); [|apply IH; [lia | exact W]].
    pose proof (well_formed_register _ d (groups_in_block_named row) W) as Wr.
    destruct rest as [|schedule_row rest']; [exact Wr|].
    simpl in Le. apply IH; [lia|]. apply well_formed_fill_cells, Wr.
Qed.

(** X9. Every snapshot [get_schedule] returns, filtered or not, has
    pairwise different group names, each of which passes the header test
    (3 to 15 characters with a letter and a digit), and holds no lesson
    whose subject is a placeholder; its date key is always set. *)
Theorem get_schedule_well_formed :
  forall (fetched : Fetched) (group_filter : option pystr)
         (sd : ScheduleData),
    get_schedule fetched group_filter = Some sd ->
    exists d gs,
      date sd = Some d /\ groups sd = Some gs
      /\ NoDup (keys gs)
      /\ forall g es,
           In (g, es) gs ->
           (3 <= len g <= 15
            /\ (exists c, In c g /\ isalpha c = true)
            /\ (exists c, In c g /\ isdigit c = true))
           /\ forall e, In e es -> is_placeholder (subject e) = false.
Proof.
  intros fetched gf sd. unfold get_schedule.
  destruct fetched as [|text]; [discriminate|].
  destruct (negb (truthy text) || str_eqb (strip text) []); [discriminate|].
  destruct (soup_table (BeautifulSoup text)) as [rows|]; [|discriminate].
  pose proof (well_formed_parse_rows rows [] well_formed_nil) as [N F].
  assert (Item : forall g es,
             In (g, es) (parse_rows rows []) ->
             (3 <= len g <= 15
              /\ (exists c, In c g /\ isalpha c = true)
              /\ (exists c, In c g /\ isdigit c = true))
             /\ forall e, In e es -> is_placeholder (subject e) = false).
  { intros g es I. rewrite Forall_forall in F. destruct (F _ I) as [G Fe].
    split; [apply is_group_name_spec; exact G|].
    rewrite Forall_forall in Fe. exact Fe. }
  destruct (filter_given gf) as [g|].
  - destruct (dict_get g (parse_rows rows [])) as [entries|] eqn:G;
      [|discriminate].
    intros [= <-]. eexists _, _. split; [reflexivity|]. split; [reflexivity|].
    split; [repeat constructor; intros []|].
    intros g' es [[= <- <-] | []]. apply Item. apply dict_get_Some_In, G.
  - intros [= <-]. eexists _, _. split; [reflexivity|]. split; [reflexivity|].
    split; [exact N | exact Item].
Qed.

(** X10. Cells of a content row beyond the number of names of its block
    are ignored: adding cells after them changes nothing in the parse. *)
Theorem extra_cells_ignored :
  forall (row : Tr) (ths : list pystr) (cells extra : list BigCell)
         (rest : list Tr) (d : dict GroupSchedule),
    (length (groups_in_block row) <= length cells)%nat ->
    parse_rows
      (row :: {| tr_ths := ths; tr_tds := cells ++ extra |} :: rest) d
    = parse_rows (row :: {| tr_ths := ths; tr_tds := cells |} :: rest) d.
Proof.
  intros row ths cells extra rest d Le.
  assert (Fill : forall names cs d',
             (length names <= length cs)%nat ->
             fill_cells names (cs ++ extra) d' = fill_cells names cs d').
  { intros names cs. revert names.
    induction cs as [|c cs IH]; intros names d' L.
    - destruct names; [|simpl in L; lia]. destruct extra; reflexivity.
    - destruct names as [|n names]; [reflexivity|]. simpl in L. simpl.
      apply IH. lia. }
  cbn [parse_rows tr_ths tr_tds].
  destruct (truthy (tr_ths row)), (truthy (groups_in_block row));
    try rewrite (Fill _ _ _ Le); try reflexivity;
    unfold groups_in_block at 1 3; cbn [tr_ths];
    destruct (truthy ths); try reflexivity;
    destruct (truthy (filter is_group_name ths)); try reflexivity;
    destruct rest; reflexivity.
Qed.

(** X11. A block header in the last row has no content row: each of its
    names not yet present is registered with an empty schedule, and the
    groups parsed before keep their entries. *)
Theorem header_without_content_row :
  forall (row : Tr) (d : dict GroupSchedule) (g : pystr),
    In g (groups_in_block row) ->
    dict_get g (parse_rows [row] d)
    = match dict_get g d with
      | Some entries => Some entries
      | None => Some []
      end
    /\ forall g', ~ In g' (groups_in_block row) ->
                  dict_get g' (parse_rows [row] d) = dict_get g' d.
Proof.
  intros row d g I. cbn [parse_rows].
  assert (Tn : truthy (groups_in_block row) = true).
  { apply truthy_true. intros E; rewrite E in I; exact I. }
  assert (Th : truthy (tr_ths row) = true).
  { apply truthy_true. intros E. unfold groups_in_block in I.
    rewrite E in I; exact I. }
  rewrite Th, Tn. split.
  - rewrite dict_get_register. apply existsb_str_eqb in I. rewrite I.
    reflexivity.
  - intros g' No. rewrite dict_get_register.
    destruct (dict_get g' d); [reflexivity|].
    destruct (existsb (str_eqb g') (groups_in_block row)) eqn:E;
      [|reflexivity].
    apply existsb_str_eqb in E. contradiction.
Qed.

(** X12. The date of a snapshot is the first line of the date block that
    contains one of the five month names, stripped; without the block or
    without such a line it is the text for an unspecified date. *)
Theorem parse_date_first_month_line :
  forall (soup : Soup),
    (soup_date_div soup = None -> parse_date soup = date_unspecified)
    /\ (forall date_text,
          soup_date_div soup = Some date_text ->
          (forall line, In line (split_on 10 date_text) ->
                        has_month line = false) ->
          parse_date soup = date_unspecified)
    /\ (forall date_text before line after,
          soup_date_div soup = Some date_text ->
          split_on 10 date_text = before ++ line :: after ->
          (forall l, In l before -> has_month l = false) ->
          has_month line = true ->
          parse_date soup = strip line).
Proof.
  intros soup. unfold parse_date. split; [intros ->; reflexivity|]. split.
  - intros date_text -> No.
    induction (split_on 10 date_text) as [|line lines IH]; [reflexivity|].
    simpl. rewrite (No line) by (left; reflexivity).
    apply IH. intros l I; apply No; right; exact I.
  - intros date_text before line after -> -> No Yes.
    induction before as [|l before IH]; simpl.
    + rewrite Yes. reflexivity.
    + rewrite (No l) by (left; reflexivity).
      apply IH. intros l' I; apply No; right; exact I.
Qed.

End ParserInvariant.

(* ================================================================== *)
(** * Change monitor: further properties *)

Section MonitorMore.
Context {U : Unicode} {H : HtmlParser} {D : Digest}.

Lemma diff_step_current (previous : dict pystr)
  (acc : dict pystr * list pystr) (item : pystr * GroupSchedule) :
  fst (diff_step previous acc item)
  = dict_set (fst item) (group_hash (snd item)) (fst acc).
Proof.
  unfold diff_step. destruct (dict_get (fst item) previous).
  - destruct (negb _); reflexivity.
  - destruct (truthy previous); reflexivity.
Qed.

Lemma diff_fold_current (previous : dict pystr) (gs : dict GroupSchedule)
  (acc : dict pystr * list pystr) :
  NoDup (keys (fst acc) ++ keys gs) ->
  fst (fold_left (diff_step previous) gs acc)
  = fst acc ++ map (fun item => (fst item, group_hash (snd item))) gs.
Proof.
  revert acc; induction gs as [|[g pairs] gs IH]; intros acc N; simpl.
  - rewrite app_nil_r; reflexivity.
  - assert (Fresh : dict_get g (fst acc) = None).
    { apply dict_get_None_keys. intros I.
      apply NoDup_remove_2 in N. apply N, in_or_app. left; exact I. }
    rewrite IH; rewrite diff_step_current; cbn [fst snd];
      rewrite dict_set_fresh by exact Fresh.
    + rewrite <- app_assoc. reflexivity.
    + unfold keys in *. rewrite map_app, <- app_assoc. exact N.
Qed.

Lemma diff_groups_map (previous : dict pystr) (gs : dict GroupSchedule) :
  NoDup (keys gs) ->
  fst (diff_groups previous gs)
  = map (fun item => (fst item, group_hash (snd item))) gs
  /\ forall g,
       dict_get g (fst (diff_groups previous gs))
       = option_map group_hash (dict_get g gs).
Proof.
  intros N.
  assert (E : fst (diff_groups previous gs)
              = map (fun item => (fst item, group_hash (snd item))) gs).
  { unfold diff_groups. rewrite diff_fold_current; [reflexivity | exact N]. }
  split; [exact E|]. intros g. rewrite E. clear.
  induction gs as [|[k pairs] gs IH]; simpl; [reflexivity|].
  destruct (str_eqb g k); [reflexivity | exact IH].
Qed.

(** X13. The hash map a pass computes is that of the new snapshot alone:
    one hash per group of the snapshot, in its order, whatever the prior
    map held. Groups that left the snapshot are not carried over. *)
Theorem diff_groups_replaces :
  forall (previous : dict pystr) (gs : dict GroupSchedule),
    NoDup (keys gs) ->
    fst (diff_groups previous gs)
    = map (fun item => (fst item, group_hash (snd item))) gs
    /\ (forall g,
          dict_get g (fst (diff_groups previous gs))
          = option_map group_hash (dict_get g gs))
    /\ forall g,
         ~ In g (keys gs) ->
         dict_get g (fst (diff_groups previous gs)) = None.
Proof.
  intros previous gs N. destruct (diff_groups_map previous gs N) as [E Get].
  split; [exact E|]. split; [exact Get|].
  intros g Absent. rewrite Get. apply dict_get_None_keys in Absent.
  rewrite Absent. reflexivity.
Qed.

(** X14. Once a pass has stored the hashes of a snapshot, a pass over the
    same groups reports no change, whatever map was held before. *)
Theorem unchanged_snapshot_is_quiet :
  forall (previous : dict pystr) (gs : dict GroupSchedule),
    NoDup (keys gs) ->
    changed_groups (fst (diff_groups previous gs)) gs = [].
Proof.
  intros previous gs N.
  destruct (changed_groups (fst (diff_groups previous gs)) gs) as [|g l] eqn:E;
    [reflexivity|]. exfalso.
  assert (I : In g (changed_groups (fst (diff_groups previous gs)) gs))
    by (rewrite E; left; reflexivity).
  unfold changed_groups at 1, diff_groups at 1 in I.
  apply diff_fold_changed in I. destruct I as [[] | [pairs [I C]]].
  destruct (diff_groups_map previous gs N) as [_ Get].
  pose proof (In_dict_get g pairs gs N I) as G.
  destruct C as [[old [O Ne]] | [O _]]; rewrite Get, G in O; simpl in O.
  - injection O as <-. apply Ne; reflexivity.
  - discriminate O.
Qed.

(** X15. In [schedule_bot.py], a pass whose parse succeeds and which has
    nothing to report, or nobody to report to, replaces the held hashes
    by those of the new snapshot and calls [send_message] for nobody. *)
Theorem monitor_schedule_quiet_pass :
  forall (w : World) (fetched : Fetched) (st : MonitorState)
         (schedule : ScheduleData) (gs : dict GroupSchedule),
    get_schedule fetched None = Some schedule ->
    groups schedule = Some gs ->
    changed_groups (previous_hashes st) gs = [] \/ subscriptions w = [] ->
    monitor_schedule w fetched st
    = {| previous_hashes := fst (diff_groups (previous_hashes st) gs);
         user_id := user_id st;
         sent := sent st |}.
Proof.
  intros w fetched st schedule gs Parsed G Quiet.
  unfold monitor_schedule, monitor_pass. rewrite Parsed, G.
  unfold changed_groups in Quiet.
  destruct (diff_groups (previous_hashes st) gs) as [current changed].
  cbn [fst snd] in *. destruct (truthy changed) eqn:T; [|reflexivity].
  destruct Quiet as [-> | NoSubs]; [discriminate T|].
  unfold get_all_subscribers. rewrite NoSubs. reflexivity.
Qed.

End MonitorMore.

(* ================================================================== *)
(** * Query layer: further properties *)

Section QueryMore.
Context {U : Unicode} {L : SetLayout}.

Lemma get_all_teachers_In (schedule_data : option ScheduleData) (t : pystr) :
  In t (get_all_teachers schedule_data) ->
  t <> []
  /\ exists sd gs g pairs p,
       schedule_data = Some sd /\ groups sd = Some gs
       /\ In (g, pairs) gs /\ In p pairs /\ teacher p = t.
Proof.
  unfold get_all_teachers. destruct schedule_data as [sd|]; [|intros []].
  destruct (negb (has_keys sd)); [intros []|].
  destruct (groups sd) as [gs|] eqn:G; [|intros []].
  intros I. apply (Permutation_in _ (set_iter_perm _)) in I.
  unfold teachers_inserted in I. apply teachers_fold_In in I.
  destruct I as [[] | [Nt [g [pairs [p [Ig [Ip E]]]]]]].
  split; [exact Nt|]. exists sd, gs, g, pairs, p. auto.
Qed.

Lemma get_all_teachers_NoDup (schedule_data : option ScheduleData) :
  NoDup (get_all_teachers schedule_data).
Proof.
  unfold get_all_teachers. destruct schedule_data as [sd|]; [|constructor].
  destruct (negb (has_keys sd)); [constructor|].
  destruct (groups sd) as [gs|]; [|constructor].
  eapply Permutation_NoDup; [symmetry; apply set_iter_perm|].
  apply teachers_fold_NoDup; constructor.
Qed.

Lemma search_teachers_In_all (query : pystr)
  (schedule_data : option ScheduleData) (t : pystr) :
  In t (search_teachers query schedule_data) ->
  In t (get_all_teachers schedule_data).
Proof.
  unfold search_teachers.
  destruct (truthy (filter _ (get_all_teachers schedule_data))).
  - intros I. apply filter_In in I. apply I.
  - intros I. apply (Permutation_in _ (sorted_perm _)) in I.
    apply filter_In in I. apply I.
Qed.

(** X16. [search_teachers] lists each name once, and only names that
    some lesson of the snapshot carries as its teacher; for an absent
    snapshot the list is empty. *)
Theorem search_teachers_sound :
  forall (query : pystr) (schedule_data : option ScheduleData),
    NoDup (search_teachers query schedule_data)
    /\ (forall t,
          In t (search_teachers query schedule_data) ->
          t <> []
          /\ exists sd gs g pairs p,
               schedule_data = Some sd /\ groups sd = Some gs
               /\ In (g, pairs) gs /\ In p pairs /\ teacher p = t)
    /\ search_teachers query None = [].
Proof.
  intros query schedule_data. split; [|split].
  - unfold search_teachers.
    pose proof (get_all_teachers_NoDup schedule_data) as N.
    destruct (truthy (filter _ (get_all_teachers schedule_data))).
    + apply NoDup_filter, N.
    + eapply Permutation_NoDup; [symmetry; apply sorted_perm|].
      apply NoDup_filter, N.
  - intros t I. apply get_all_teachers_In.
    eapply search_teachers_In_all; exact I.
  - reflexivity.
Qed.

(** X17. Every name [search_teachers] returns has lessons to show: for
    it, [find_teacher_schedule] on the same snapshot is a non-empty
    mapping. The handler of the teacher command relies on this when
    the search returns a single name. *)
Theorem found_teacher_has_schedule :
  forall (query : pystr) (sd : ScheduleData) (gs : dict GroupSchedule)
         (t : pystr),
    groups sd = Some gs ->
    NoDup (keys gs) ->
    In t (search_teachers query (Some sd)) ->
    exists g entries,
      dict_get g (find_teacher_schedule t (Some sd)) = Some entries
      /\ exists p, In p entries /\ teacher p = t.
Proof.
  intros query sd gs t G N I.
  apply search_teachers_In_all, get_all_teachers_In in I.
  destruct I as [Nt [sd' [gs' [g [pairs [p [[= <-] [G' [Ig [Ip E]]]]]]]]]].
  rewrite G in G'. injection G' as <-.
  exists g.
  assert (R : dict_get g (find_teacher_schedule t (Some sd))
              = matching_or_absent (teacher_matches (lower t))
                  (dict_get g gs)).
  { unfold find_teacher_schedule, find_teacher_schedule_with, has_keys.
    rewrite G. destruct (date sd); simpl; apply find_in_groups_get; exact N. }
  rewrite R, (In_dict_get g pairs gs N Ig). cbn [matching_or_absent].
  assert (M : In p (filter (teacher_matches (lower t)) pairs)).
  { apply filter_In. split; [exact Ip|]. unfold teacher_matches.
    rewrite E. apply truthy_true in Nt. rewrite Nt, str_eqb_refl.
    reflexivity. }
  destruct (filter (teacher_matches (lower t)) pairs) as [|m ms] eqn:F;
    [destruct M|].
  exists (m :: ms). split; [reflexivity|]. exists p. split; [exact M | exact E].
Qed.

End QueryMore.

(* ================================================================== *)
(** * Long messages: properties *)

Lemma split_on_join (s : pystr) :
  concat (map (fun line => line ++ [10]) (split_on 10 s)) = s ++ [10].
Proof.
  induction s as [|c s IH]; [reflexivity|]. cbn [split_on].
  destruct (c =? 10) eqn:E.
  - apply Z.eqb_eq in E; subst c. cbn [map concat]. rewrite IH. reflexivity.
  - destruct (split_on 10 s) as [|line lines].
    + destruct s; discriminate IH.
    + cbn [map concat] in *. rewrite <- app_comm_cons.
      cbn [app]. rewrite <- IH. rewrite <- !app_assoc. reflexivity.
Qed.

Lemma split_on_nonempty (s : pystr) : split_on 10 s <> [].
Proof.
  intros E. pose proof (split_on_join s) as J. rewrite E in J.
  destruct s; discriminate J.
Qed.

Lemma split_fold_concat (max_length : Z) (lines : list pystr)
  (acc : list pystr * pystr) :
  concat (fst (fold_left (split_step max_length) lines acc))
  ++ snd (fold_left (split_step max_length) lines acc)
  = concat (fst acc) ++ snd acc
    ++ concat (map (fun line => line ++ [10]) lines).
Proof.
  revert acc; induction lines as [|line lines IH]; intros acc; simpl.
  - rewrite app_nil_r; reflexivity.
  - rewrite IH. unfold split_step.
    destruct (max_length <? len (snd acc) + len line + 1); cbn [fst snd].
    + rewrite concat_app; simpl. rewrite app_nil_r, <- !app_assoc.
      reflexivity.
    + rewrite <- !app_assoc. reflexivity.
Qed.

Lemma split_fold_prefix (max_length : Z) (lines : list pystr)
  (acc : list pystr * pystr) :
  exists more,
    fst (fold_left (split_step max_length) lines acc) = fst acc ++ more.
Proof.
  revert acc; induction lines as [|line lines IH]; intros acc; simpl.
  - exists []; rewrite app_nil_r; reflexivity.
  - destruct (IH (split_step max_length acc line)) as [more E]. rewrite E.
    unfold split_step.
    destruct (max_length <? len (snd acc) + len line + 1); cbn [fst].
    + exists ([snd acc] ++ more). rewrite app_assoc; reflexivity.
    + exists more; reflexivity.
Qed.

Lemma len_app (a b : pystr) : len (a ++ b) = len a + len b.
Proof. unfold len. rewrite length_app. lia. Qed.

Lemma label_parts_nth (parts : list pystr) (i k : nat) :
  nth_error (label_parts (S i) parts) k
  = option_map (fun part => part_label (S i + k) ++ part) (nth_error parts k).
Proof.
  revert i k; induction parts as [|part parts IH]; intros i k.
  - destruct k; reflexivity.
  - destruct k; cbn [label_parts nth_error option_map].
    + rewrite Nat.add_0_r. reflexivity.
    + rewrite IH. replace (S (S i) + k)%nat with (S i + S k)%nat by lia.
      reflexivity.
Qed.

(** X18. [send_long_message] sends a text within the limit as it is.
    A longer text is cut at line ends: the parts, put together again,
    are the text followed by one newline, so nothing is lost or
    reordered; the first part is sent as it is and part [k+1] after the
    label that numbers it. *)
Theorem send_long_message_keeps_text :
  forall (text : pystr) (max_length : Z),
    (len text <= max_length -> send_long_message text max_length = [text])
    /\ concat (message_parts text max_length) = text ++ [10]
    /\ (max_length < len text ->
        nth_error (send_long_message text max_length) 0
        = nth_error (message_parts text max_length) 0
        /\ forall k,
             nth_error (send_long_message text max_length) (S k)
             = option_map (fun part => part_label (S k) ++ part)
                 (nth_error (message_parts text max_length) (S k))).
Proof.
  intros text max_length. split; [|split].
  - intros Le. unfold send_long_message.
    apply Z.leb_le in Le. rewrite Le. reflexivity.
  - unfold message_parts.
    pose proof (split_fold_concat max_length (split_on 10 text) ([], []))
      as C. cbn [fst snd concat app] in C. rewrite split_on_join in C.
    destruct (fold_left (split_step max_length) (split_on 10 text) ([], []))
      as [parts [|c cur]]; cbn [fst snd truthy] in *.
    + rewrite app_nil_r in C. exact C.
    + rewrite concat_app. cbn [concat]. rewrite app_nil_r. exact C.
  - intros Long. unfold send_long_message.
    assert (E : (len text <=? max_length) = false) by (apply Z.leb_gt; lia).
    rewrite E. destruct (message_parts text max_length) as [|part parts];
      [split; [reflexivity | intros k; reflexivity]|].
    split; [reflexivity|]. intros k. cbn [label_parts nth_error].
    rewrite label_parts_nth. reflexivity.
Qed.

(** X19. When every line of the text is shorter than the limit, no part
    is empty and no part is longer than the limit. *)
Theorem message_parts_bounded :
  forall (text : pystr) (max_length : Z),
    (forall line, In line (split_on 10 text) -> len line < max_length) ->
    forall part,
      In part (message_parts text max_length) ->
      part <> [] /\ len part <= max_length.
Proof.
  intros text max_length Short.
  assert (Pos : 0 <= max_length).
  { destruct (split_on 10 text) as [|line lines] eqn:E;
      [exfalso; exact (split_on_nonempty text E)|].
    specialize (Short line (or_introl eq_refl)). unfold len in Short. lia. }
  assert (Inv : forall (lines : list pystr) (acc : list pystr * pystr),
             (forall line, In line lines -> len line < max_length) ->
             Forall (fun p => p <> [] /\ len p <= max_length) (fst acc) ->
             len (snd acc) <= max_length ->
             Forall (fun p => p <> [] /\ len p <= max_length)
               (fst (fold_left (split_step max_length) lines acc))
             /\ len (snd (fold_left (split_step max_length) lines acc))
                <= max_length).
  { induction lines as [|line lines IH]; intros [parts cur] Sh F C;
      cbn [fold_left]; [auto|]. cbn [fst snd] in F, C.
    assert (Ll : len line < max_length) by (apply Sh; left; reflexivity).
    assert (L10 : len (line ++ [10]) = len line + 1)
      by (rewrite len_app; reflexivity).
    apply IH; [intros l I; apply Sh; right; exact I | |];
      unfold split_step; cbn [fst snd];
      destruct (max_length <? len cur + len line + 1) eqn:E;
      cbn [fst snd]; try exact F.
    - apply Forall_app. split; [exact F|]. constructor; [|constructor].
      split; [|exact C]. intros Nil. rewrite Nil in E.
      apply Z.ltb_lt in E. change (len []) with 0 in E. lia.
    - lia.
    - apply Z.ltb_ge in E. rewrite len_app. lia. }
  destruct (Inv (split_on 10 text) ([], []) Short) as [F C];
    [constructor | unfold len; simpl; lia|].
  intros part I. unfold message_parts in I. rewrite Forall_forall in F.
  destruct (fold_left (split_step max_length) (split_on 10 text) ([], []))
    as [parts [|c cur]]; cbn [fst snd truthy] in *.
  - apply F, I.
  - apply in_app_or in I. destruct I as [I | [<- | []]]; [apply F, I|].
    split; [discriminate | exact C].
Qed.

(** X20. When the text is over the limit and its first line alone, with
    its newline, does not fit, the first text passed to [reply_text] is
    the empty string. *)
Theorem long_first_line_sends_empty :
  forall (text : pystr) (max_length : Z) (line : pystr) (rest : list pystr),
    max_length < len text ->
    split_on 10 text = line :: rest ->
    max_length < len line + 1 ->
    exists more, send_long_message text max_length = [] :: more.
Proof.
  intros text max_length line rest Long Split First.
  unfold send_long_message.
  assert (E : (len text <=? max_length) = false) by (apply Z.leb_gt; lia).
  rewrite E. unfold message_parts. rewrite Split. cbn [fold_left].
  assert (S1 : split_step max_length ([], []) line = ([[]], line ++ [10])).
  { unfold split_step. cbn [fst snd]. unfold len at 1. simpl (Z.of_nat _).
    assert (F : (max_length <? 0 + len line + 1) = true)
      by (apply Z.ltb_lt; lia).
    rewrite F. reflexivity. }
  rewrite S1.
  destruct (split_fold_prefix max_length rest ([[]], line ++ [10]))
    as [more P]. rewrite P. cbn [fst app].
  destruct (truthy _); cbn [app label_parts]; eexists; reflexivity.
Qed.

(* ================================================================== *)
(** * Group name validation: properties *)

Lemma after_class_run_split (s : pystr) :
  exists run,
    s = run ++ after_class_run s
    /\ Forall (fun c => group_name_char c = true) run.
Proof.
  induction s as [|c s [run [E F]]]; [exists []; split; [reflexivity|constructor]|].
  simpl. destruct (group_name_char c) eqn:C.
  - exists (c :: run). split; [simpl; rewrite <- E; reflexivity|].
    constructor; assumption.
  - exists []. split; [reflexivity | constructor].
Qed.

Lemma after_class_run_app (body rest : pystr) :
  Forall (fun c => group_name_char c = true) body ->
  after_class_run (body ++ rest) = after_class_run rest.
Proof.
  induction 1 as [|c body C _ IH]; [reflexivity|]. simpl. rewrite C. exact IH.
Qed.

(** X21. [validate_group_name] accepts exactly the names of 2 to 20
    characters made of Cyrillic letters А-я, Latin letters, digits and
    hyphens, and such a run followed by one final newline (the pattern
    ends in [$]); the letters Ё and ё are outside the class. Every
    other name is refused with a message. *)
Theorem validate_group_name_accepts :
  forall (group_name : pystr),
    (validate_group_name group_name = (true, None) <->
     2 <= len group_name <= 20
     /\ exists body,
          body <> []
          /\ Forall (fun c => group_name_char c = true) body
          /\ (group_name = body \/ group_name = body ++ [10]))
    /\ (fst (validate_group_name group_name) = false ->
        exists message, snd (validate_group_name group_name) = Some message)
    /\ group_name_char 1025 = false /\ group_name_char 1105 = false.
Proof.
  intros s. split; [|split; [|split; reflexivity]].
  - unfold validate_group_name. split.
    + destruct (truthy s) eqn:T; cbn [negb]; [|discriminate].
      destruct (20 <? len s) eqn:L20; [discriminate|].
      destruct (len s <? 2) eqn:L2; [discriminate|].
      destruct (group_name_pattern s) eqn:P; cbn [negb]; [|discriminate].
      intros _. apply Z.ltb_ge in L20, L2. split; [lia|].
      unfold group_name_pattern in P. destruct s as [|c s']; [discriminate|].
      apply andb_true_iff in P. destruct P as [C A].
      destruct (after_class_run_split (c :: s')) as [run [E F]].
      exists run. split.
      * intros ->. cbn [app] in E. rewrite <- E in A.
        apply orb_true_iff in A. destruct A as [A | A];
          apply str_eqb_eq in A; [discriminate A|].
        injection A as -> _. vm_compute in C. discriminate C.
      * split; [exact F|]. apply orb_true_iff in A.
        destruct A as [A | A]; apply str_eqb_eq in A; rewrite A in E.
        -- left. rewrite app_nil_r in E. exact E.
        -- right. exact E.
    + intros [[L2 L20] [body [Nb [F Shape]]]].
      assert (T : truthy s = true).
      { apply truthy_true. intros ->. unfold len in L2; simpl in L2; lia. }
      assert (E20 : (20 <? len s) = false) by (apply Z.ltb_ge; lia).
      assert (E2 : (len s <? 2) = false) by (apply Z.ltb_ge; lia).
      rewrite T, E20, E2. cbn [negb].
      assert (P : group_name_pattern s = true).
      { unfold group_name_pattern. destruct body as [|c body]; [congruence|].
        inversion F as [|? ? C F']; subst.
        destruct Shape as [-> | ->].
        - assert (A : after_class_run (c :: body) = []).
          { rewrite <- (app_nil_r (c :: body)).
            rewrite after_class_run_app by exact F. reflexivity. }
          rewrite A, C. reflexivity.
        - assert (A : after_class_run ((c :: body) ++ [10]) = [10]).
          { rewrite after_class_run_app by exact F. reflexivity. }
          rewrite A. cbn [app]. rewrite C. reflexivity. }
      rewrite P. reflexivity.
  - unfold validate_group_name.
    destruct (negb (truthy s)); [eexists; reflexivity|].
    destruct (20 <? len s); [eexists; reflexivity|].
    destruct (len s <? 2); [eexists; reflexivity|].
    destruct (negb (group_name_pattern s)); [eexists; reflexivity|].
    discriminate.
Qed.

(* ================================================================== *)
(** * Rate limiting: properties *)







(* ================================================================== *)
(** * Users, groups and subscriptions: properties *)

Module DbFacts.
Import Db.

Lemma keys_upsert (u : Z) (g : option pystr) (rows : list (Z * option pystr)) :
  map fst (upsert u g rows)
  = if existsb (fun row => fst row =? u) rows
    then map fst rows else map fst rows ++ [u].
Proof.
  induction rows as [|[v g'] rows IH]; simpl; [reflexivity|].
  destruct (v =? u) eqn:E; simpl; [reflexivity|].
  rewrite IH. destruct (existsb _ rows); reflexivity.
Qed.

Lemma registered_iff (u : Z) (db : t) :
  registered u db = true <-> In u (map fst (users db)).
Proof.
  unfold registered. rewrite existsb_exists, in_map_iff. split.
  - intros [row [I E]]. apply Z.eqb_eq in E. exists row; auto.
  - intros [row [E I]]. exists row. split; [exact I | apply Z.eqb_eq, E].
Qed.

Lemma registered_set (u v : Z) (g : option pystr) (db : t) :
  registered v (set_user_group u g db) = registered v db || (v =? u).
Proof.
  destruct (registered v db || (v =? u)) eqn:R.
  - apply registered_iff. cbn [users set_user_group]. rewrite keys_upsert.
    apply orb_true_iff in R. destruct R as [R | R].
    + apply registered_iff in R.
      destruct (existsb _ (users db)); [exact R | apply in_or_app; auto].
    + apply Z.eqb_eq in R; subst v.
      destruct (existsb _ (users db)) eqn:X.
      * apply registered_iff. exact X.
      * apply in_or_app; right; left; reflexivity.
  - apply orb_false_iff in R. destruct R as [R Ne].
    destruct (registered v (set_user_group u g db)) eqn:R'; [|reflexivity].
    apply registered_iff in R'. cbn [users set_user_group] in R'.
    rewrite keys_upsert in R'.
    destruct (existsb _ (users db)).
    + apply registered_iff in R'. congruence.
    + apply in_app_or in R'. destruct R' as [I | [<- | []]].
      * apply registered_iff in I. congruence.
      * rewrite Z.eqb_refl in Ne. discriminate.
Qed.

Lemma get_user_set (u v : Z) (g : option pystr) (db : t) :
  get_user v (set_user_group u g db)
  = if v =? u then Some g else get_user v db.
Proof.
  unfold get_user. cbn [users set_user_group].
  induction (users db) as [|[w g'] rows IH]; simpl.
  - rewrite Z.eqb_sym. destruct (v =? u); reflexivity.
  - destruct (w =? u) eqn:Wu; simpl.
    + apply Z.eqb_eq in Wu; subst w. rewrite (Z.eqb_sym u v).
      destruct (v =? u); reflexivity.
    + destruct (w =? v) eqn:Wv; simpl; [|exact IH].
      apply Z.eqb_eq in Wv; subst w. rewrite Wu. reflexivity.
Qed.

Lemma consistent_empty : consistent empty.
Proof.
  repeat split; try constructor; intros ? [].
Qed.

Lemma consistent_set (u : Z) (g : option pystr) (db : t) :
  consistent db -> consistent (set_user_group u g db).
Proof.
  intros (Nu & Ne & Ns & Fe & Fs). repeat split; try assumption.
  - cbn [users set_user_group]. rewrite keys_upsert.
    destruct (existsb _ (users db)) eqn:X; [exact Nu|].
    apply NoDup_rev in Nu. rewrite <- (rev_involutive (_ ++ [u])).
    apply NoDup_rev. rewrite rev_app_distr; simpl. constructor; [|exact Nu].
    rewrite <- in_rev. intros I. apply registered_iff in I.
    unfold registered in I. congruence.
  - intros row I. rewrite registered_set. rewrite (Fe row I). reflexivity.
  - intros v I. rewrite registered_set. rewrite (Fs v I). reflexivity.
Qed.

Lemma NoDup_snoc {A : Type} (x : A) (l : list A) :
  ~ In x l -> NoDup l -> NoDup (l ++ [x]).
Proof.
  intros X N. apply NoDup_rev in N. rewrite <- (rev_involutive (l ++ [x])).
  apply NoDup_rev. rewrite rev_app_distr; simpl. constructor; [|exact N].
  rewrite <- in_rev; exact X.
Qed.

Lemma existsb_same_row (row : Z * pystr) (rows : list (Z * pystr)) :
  existsb (same_row row) rows = true <-> In row rows.
Proof.
  rewrite existsb_exists. unfold same_row. split.
  - intros [r [I E]]. apply andb_true_iff in E. destruct E as [E1 E2].
    apply Z.eqb_eq in E1. apply str_eqb_eq in E2.
    destruct row, r; simpl in *; subst; exact I.
  - intros I. exists row. split; [exact I|].
    rewrite Z.eqb_refl, str_eqb_refl. reflexivity.
Qed.

Lemma existsb_Zeqb (u : Z) (l : list Z) :
  existsb (Z.eqb u) l = true <-> In u l.
Proof.
  rewrite existsb_exists. split.
  - intros [v [I E]]. apply Z.eqb_eq in E; subst; exact I.
  - intros I. exists u. split; [exact I | apply Z.eqb_refl].
Qed.

Lemma consistent_subscribe (u : Z) (db db' : t) :
  consistent db -> subscribe_user u db = inr db' -> consistent db'.
Proof.
  intros C. unfold subscribe_user.
  destruct (existsb (Z.eqb u) (subscribed db)) eqn:X; [intros [= <-]; exact C|].
  destruct (registered u db) eqn:R; [|discriminate]. intros [= <-].
  destruct C as (Nu & Ne & Ns & Fe & Fs). repeat split; try assumption.
  - cbn [subscribed]. apply NoDup_snoc; [|exact Ns].
    rewrite <- existsb_Zeqb, X. discriminate.
  - cbn [subscribed]. intros v I. apply in_app_or in I.
    destruct I as [I | [<- | []]]; [apply Fs, I | exact R].
Qed.

Lemma consistent_unsubscribe (u : Z) (db : t) :
  consistent db -> consistent (unsubscribe_user u db).
Proof.
  intros (Nu & Ne & Ns & Fe & Fs). repeat split; try assumption.
  - cbn [subscribed unsubscribe_user]. apply NoDup_filter, Ns.
  - cbn [subscribed unsubscribe_user]. intros v I. apply filter_In in I.
    apply Fs, I.
Qed.

Lemma consistent_add (u : Z) (g : pystr) (db : t) :
  consistent db -> consistent (snd (add_extra_group u g db)).
Proof.
  intros C. unfold add_extra_group.
  destruct (existsb (same_row (u, g)) (extra_groups db)) eqn:X; [exact C|].
  destruct (registered u db) eqn:R; [|exact C].
  destruct C as (Nu & Ne & Ns & Fe & Fs). repeat split; try assumption.
  - cbn [snd extra_groups]. apply NoDup_snoc; [|exact Ne].
    rewrite <- existsb_same_row, X. discriminate.
  - cbn [snd extra_groups]. intros row I. apply in_app_or in I.
    destruct I as [I | [<- | []]]; [apply Fe, I | exact R].
Qed.

Lemma consistent_remove (u : Z) (g : pystr) (db : t) :
  consistent db -> consistent (snd (remove_extra_group u g db)).
Proof.
  intros (Nu & Ne & Ns & Fe & Fs). repeat split; try assumption.
  - cbn [snd extra_groups remove_extra_group]. apply NoDup_filter, Ne.
  - cbn [snd extra_groups remove_extra_group]. intros row I.
    apply filter_In in I. apply Fe, I.
Qed.

Lemma extras_In (u : Z) (g : pystr) (db : t) :
  In g (get_user_extra_groups u db) <-> In (u, g) (extra_groups db).
Proof.
  unfold get_user_extra_groups. rewrite in_map_iff. split.
  - intros [[v g'] [E I]]. apply filter_In in I. destruct I as [I V].
    simpl in *. apply Z.eqb_eq in V. subst. exact I.
  - intros I. exists (u, g). split; [reflexivity|].
    apply filter_In. split; [exact I | apply Z.eqb_refl].
Qed.

Lemma extras_NoDup (u : Z) (db : t) :
  NoDup (extra_groups db) -> NoDup (get_user_extra_groups u db).
Proof.
  unfold get_user_extra_groups. intros N.
  induction (extra_groups db) as [|[v g] rows IH]; simpl; [constructor|].
  inversion N as [|? ? X N']; subst.
  destruct (v =? u) eqn:E; simpl; [|apply IH, N'].
  apply Z.eqb_eq in E; subst v. constructor; [|apply IH, N'].
  intros I. apply in_map_iff in I. destruct I as [[w g'] [Eg I]].
  apply filter_In in I. destruct I as [I W]. simpl in *.
  apply Z.eqb_eq in W. subst. exact (X I).
Qed.

End DbFacts.

Section HandlerFacts.
Context {P : Upper}.

Lemma validate_true (g : pystr) :
  fst (validate_group_name g) = true -> validate_group_name g = (true, None).
Proof.
  unfold validate_group_name.
  destruct (negb (truthy g)); [discriminate|].
  destruct (20 <? len g); [discriminate|].
  destruct (len g <? 2); [discriminate|].
  destruct (negb (group_name_pattern g)); [discriminate | reflexivity].
Qed.

Lemma upsert_In (u v : Z) (g x : option pystr)
  (rows : list (Z * option pystr)) :
  In (v, x) (Db.upsert u g rows) -> (v = u /\ x = g) \/ In (v, x) rows.
Proof.
  induction rows as [|[w g'] rows IH]; simpl.
  - intros [[= <- <-] | []]; auto.
  - destruct (w =? u) eqn:E; simpl.
    + apply Z.eqb_eq in E; subst w. intros [[= <- <-] | I]; auto.
    + intros [I | I]; [auto|]. destruct (IH I); auto.
Qed.

Lemma get_user_In (u : Z) (x : option pystr) (db : Db.t) :
  Db.get_user u db = Some x -> In (u, x) (Db.users db).
Proof.
  unfold Db.get_user.
  destruct (find (fun row => fst row =? u) (Db.users db)) as [[v y]|] eqn:F;
    [|discriminate].
  intros [= <-]. apply find_some in F. destruct F as [I E].
  simpl in E. apply Z.eqb_eq in E; subst v. exact I.
Qed.

Lemma count_filter_le (u : Z) (f : Z * pystr -> bool)
  (rows : list (Z * pystr)) :
  (length (filter (fun row => (fst row =? u)%Z) (filter f rows))
   <= length (filter (fun row => (fst row =? u)%Z) rows))%nat.
Proof.
  induction rows as [|row rows IH]; simpl; [lia|].
  destruct (f row); simpl; destruct (fst row =? u); simpl; lia.
Qed.

Lemma tables_ok_empty : tables_ok Db.empty.
Proof.
  split; [apply DbFacts.consistent_empty|]. split; [|split].
  - intros u. unfold Db.count_extra_groups, MAX_EXTRA_GROUPS. simpl. lia.
  - intros row [].
  - intros u g [].
Qed.

Lemma tables_ok_set (u : Z) (g : option pystr) (db : Db.t) :
  (forall name, g = Some name -> fst (validate_group_name name) = true) ->
  tables_ok db -> tables_ok (Db.set_user_group u g db).
Proof.
  intros Valid (C & Count & Ve & Vu).
  split; [apply DbFacts.consistent_set, C|]. split; [exact Count|].
  split; [exact Ve|]. intros v name I. cbn [Db.users Db.set_user_group] in I.
  apply upsert_In in I. destruct I as [[_ E] | I]; [|eapply Vu, I].
  apply Valid. symmetry. exact E.
Qed.

Lemma tables_ok_add (u : Z) (g : pystr) (db : Db.t) :
  fst (validate_group_name g) = true ->
  Db.count_extra_groups u db < MAX_EXTRA_GROUPS ->
  tables_ok db -> tables_ok (snd (Db.add_extra_group u g db)).
Proof.
  intros Valid Room (C & Count & Ve & Vu).
  split; [apply DbFacts.consistent_add, C|].
  unfold Db.add_extra_group.
  destruct (existsb _ (Db.extra_groups db)); [repeat split; assumption|].
  destruct (Db.registered u db); [|repeat split; assumption].
  cbn [snd]. split; [|split].
  - intros v. unfold Db.count_extra_groups in *. cbn [Db.extra_groups].
    rewrite filter_app, length_app. cbn [filter fst].
    destruct (u =? v) eqn:E.
    + apply Z.eqb_eq in E; subst v. simpl. lia.
    + specialize (Count v). simpl. lia.
  - cbn [Db.extra_groups]. intros row I. apply in_app_or in I.
    destruct I as [I | [<- | []]]; [apply Ve, I | exact Valid].
  - exact Vu.
Qed.

Lemma tables_ok_remove (u : Z) (g : pystr) (db : Db.t) :
  tables_ok db -> tables_ok (snd (Db.remove_extra_group u g db)).
Proof.
  intros (C & Count & Ve & Vu).
  split; [apply DbFacts.consistent_remove, C|]. split; [|split].
  - intros v. specialize (Count v). unfold Db.count_extra_groups in *.
    cbn [snd Db.remove_extra_group Db.extra_groups].
    pose proof (count_filter_le v
                  (fun row => negb (Db.same_row (u, g) row))
                  (Db.extra_groups db)). lia.
  - cbn [snd Db.remove_extra_group Db.extra_groups]. intros row I.
    apply filter_In in I. apply Ve, I.
  - exact Vu.
Qed.

Lemma tables_ok_subscribe (u : Z) (db db' : Db.t) :
  tables_ok db -> Db.subscribe_user u db = inr db' -> tables_ok db'.
Proof.
  intros (C & Count & Ve & Vu) S.
  pose proof (DbFacts.consistent_subscribe u db db' C S) as C'.
  assert (Same : Db.extra_groups db' = Db.extra_groups db
                 /\ Db.users db' = Db.users db).
  { unfold Db.subscribe_user in S.
    destruct (existsb (Z.eqb u) (Db.subscribed db));
      [injection S as <-; split; reflexivity|].
    destruct (Db.registered u db); [|discriminate]. injection S as <-.
    split; reflexivity. }
  destruct Same as [Se Su].
  split; [exact C'|]. unfold Db.count_extra_groups. rewrite Se, Su.
  split; [exact Count | split; [exact Ve | exact Vu]].
Qed.

Lemma tables_ok_unsubscribe (u : Z) (db : Db.t) :
  tables_ok db -> tables_ok (Db.unsubscribe_user u db).
Proof.
  intros (C & Count & Ve & Vu).
  split; [apply DbFacts.consistent_unsubscribe, C|].
  split; [exact Count | split; [exact Ve | exact Vu]].
Qed.

Lemma tables_ok_handle (c : Command) (db : Db.t) :
  tables_ok db -> tables_ok (handle c db).
Proof.
  intros Ok.
  destruct c as [u | u args | u args | u args | u | u | u g | u | u];
    cbn [handle].
  - apply tables_ok_set; [discriminate | exact Ok].
  - unfold setgroup. destruct (truthy args); [|exact Ok].
    destruct (fst (validate_group_name (upper (join_words args)))) eqn:V;
      cbn [negb snd]; [|exact Ok].
    apply tables_ok_set; [|exact Ok]. intros name [= <-]. exact V.
  - unfold addgroup. destruct (negb (truthy args)); [exact Ok|].
    destruct (fst (validate_group_name (upper (join_words args)))) eqn:V;
      cbn [negb snd]; [|exact Ok].
    destruct (MAX_EXTRA_GROUPS <=? Db.count_extra_groups u db) eqn:Full;
      [exact Ok|].
    destruct (is_main_group _ _); [exact Ok|].
    apply Z.leb_gt in Full.
    pose proof (tables_ok_add u _ db V Full Ok) as Ok'.
    destruct (fst (Db.add_extra_group u (upper (join_words args)) db));
      exact Ok'.
  - unfold removegroup. destruct (negb (truthy args)).
    + destruct (negb (truthy _)); exact Ok.
    + pose proof (tables_ok_remove u (upper (join_words args)) db Ok) as Ok'.
      destruct (fst (Db.remove_extra_group u (upper (join_words args)) db));
        exact Ok'.
  - unfold subscribe.
    destruct (Db.subscribe_user u db) as [e | db'] eqn:S; [exact Ok|].
    cbn [snd]. exact (tables_ok_subscribe u db db' Ok S).
  - cbn [unsubscribe snd]. apply tables_ok_unsubscribe, Ok.
  - apply tables_ok_remove, Ok.
  - destruct (Db.subscribe_user u db) as [e | db'] eqn:S; [exact Ok|].
    exact (tables_ok_subscribe u db db' Ok S).
  - apply tables_ok_unsubscribe, Ok.
Qed.

Lemma tables_ok_handle_all (commands : list Command) (db : Db.t) :
  tables_ok db -> tables_ok (handle_all commands db).
Proof.
  unfold handle_all. revert db.
  induction commands as [|c commands IH]; intros db Ok; [exact Ok|].
  cbn [fold_left]. apply IH, tables_ok_handle, Ok.
Qed.

(** X23. After any run, on empty tables, of the commands start,
    setgroup, addgroup, removegroup, subscribe and unsubscribe and of
    the buttons that write (every handler of [schedule_bot.py] that
    writes to the tables): the tables are consistent, a user has at most
    [MAX_EXTRA_GROUPS] extra groups, hence at most five tracked groups,
    and every tracked group name passes [validate_group_name]. *)
Theorem tracked_groups_limited :
  forall (commands : list Command) (u : Z),
    Db.consistent (handle_all commands Db.empty)
    /\ Db.count_extra_groups u (handle_all commands Db.empty)
       <= MAX_EXTRA_GROUPS
    /\ Z.of_nat (length (Db.get_user_all_groups u
                           (handle_all commands Db.empty)))
       <= MAX_EXTRA_GROUPS + 1
    /\ forall g,
         In g (Db.get_user_all_groups u (handle_all commands Db.empty)) ->
         validate_group_name g = (true, None).
Proof.
  intros commands u.
  assert (Ok : tables_ok (handle_all commands Db.empty)).
  { unfold handle_all. generalize tables_ok_empty. generalize Db.empty.
    induction commands as [|c commands IH]; intros db Ok; [exact Ok|].
    cbn [fold_left]. apply IH, tables_ok_handle, Ok. }
  destruct Ok as (C & Count & Ve & Vu).
  split; [exact C|]. split; [apply Count|].
  assert (Extras : forall g,
             In g (Db.get_user_extra_groups u (handle_all commands Db.empty))
             -> validate_group_name g = (true, None)).
  { intros g I. apply DbFacts.extras_In in I. apply validate_true.
    apply (Ve _ I). }
  assert (Len : Z.of_nat (length (Db.get_user_extra_groups u
                                    (handle_all commands Db.empty)))
                <= MAX_EXTRA_GROUPS).
  { specialize (Count u). unfold Db.count_extra_groups in Count.
    unfold Db.get_user_extra_groups. rewrite length_map. exact Count. }
  unfold Db.get_user_all_groups, Db.get_user_group.
  destruct (Db.get_user u (handle_all commands Db.empty)) as [[m|]|] eqn:G;
    try (split; [lia | exact Extras]).
  destruct (truthy m); [|split; [lia | exact Extras]].
  split; [cbn [length]; lia|].
  intros g [<- | I]; [|apply Extras, I].
  apply validate_true. eapply Vu. apply get_user_In. exact G.
Qed.


(** X25. Subscribing a user who has no row in [users] raises the
    foreign-key error and writes nothing. For a registered user it
    succeeds, [is_subscribed] then holds, subscribing again changes
    nothing, and [unsubscribe_user] makes [is_subscribed] false. *)
Theorem subscription_round_trip :
  forall (db : Db.t) (u : Z),
    Db.consistent db ->
    (Db.registered u db = false ->
     Db.subscribe_user u db = inl Db.ForeignKeyViolation)
    /\ (Db.registered u db = true ->
        exists db',
          Db.subscribe_user u db = inr db'
          /\ Db.is_subscribed u db' = true
          /\ Db.subscribe_user u db' = inr db'
          /\ Db.is_subscribed u (Db.unsubscribe_user u db') = false
          /\ forall v, v <> u ->
                       Db.is_subscribed v db' = Db.is_subscribed v db).
Proof.
  intros db u (Nu & Ne & Ns & Fe & Fs). split.
  - intros R. unfold Db.subscribe_user.
    destruct (existsb (Z.eqb u) (Db.subscribed db)) eqn:X.
    + apply DbFacts.existsb_Zeqb in X. rewrite (Fs u X) in R. discriminate.
    + rewrite R. reflexivity.
  - intros R. unfold Db.subscribe_user.
    assert (Gone : forall l,
               existsb (Z.eqb u) (filter (fun w => negb (w =? u)) l) = false).
    { intros l. destruct (existsb _ (filter _ l)) eqn:X; [|reflexivity].
      apply DbFacts.existsb_Zeqb in X. apply filter_In in X.
      destruct X as [_ X]. rewrite Z.eqb_refl in X. discriminate. }
    destruct (existsb (Z.eqb u) (Db.subscribed db)) eqn:X.
    + exists db. split; [reflexivity|]. split; [exact X|].
      split; [unfold Db.subscribe_user; rewrite X; reflexivity|].
      split; [apply Gone | reflexivity].
    + rewrite R. eexists. split; [reflexivity|].
      unfold Db.is_subscribed, Db.subscribe_user.
      cbn [Db.subscribed Db.unsubscribe_user].
      assert (In' : existsb (Z.eqb u) (Db.subscribed db ++ [u]) = true).
      { apply DbFacts.existsb_Zeqb, in_or_app. right; left; reflexivity. }
      rewrite In'. split; [reflexivity|]. split; [reflexivity|].
      split; [apply Gone|]. intros v Ne'.
      rewrite existsb_app. cbn [existsb].
      apply Z.eqb_neq in Ne'. rewrite Ne'. rewrite !orb_false_r. reflexivity.
Qed.

(** X26. For a registered user, [add_extra_group] returns [True]
    exactly when the group was not yet an extra group of the user;
    afterwards the group is listed once. Removing it then returns
    [True] and the group is listed no more. For a user without a row in
    [users] it returns [False] and writes nothing. *)
Theorem extra_group_round_trip :
  forall (db : Db.t) (u : Z) (g : pystr),
    Db.consistent db ->
    (Db.registered u db = false -> Db.add_extra_group u g db = (false, db))
    /\ (Db.registered u db = true ->
        fst (Db.add_extra_group u g db)
        = negb (existsb (str_eqb g) (Db.get_user_extra_groups u db))
        /\ In g (Db.get_user_extra_groups u (snd (Db.add_extra_group u g db)))
        /\ NoDup (Db.get_user_extra_groups u
                    (snd (Db.add_extra_group u g db)))
        /\ fst (Db.remove_extra_group u g (snd (Db.add_extra_group u g db)))
           = true
        /\ ~ In g (Db.get_user_extra_groups u
                     (snd (Db.remove_extra_group u g
                             (snd (Db.add_extra_group u g db)))))).
Proof.
  intros db u g C.
  pose proof (DbFacts.consistent_add u g db C) as C'.
  destruct C as (Nu & Ne & Ns & Fe & Fs). split.
  - intros R. unfold Db.add_extra_group.
    destruct (existsb _ (Db.extra_groups db)); [reflexivity|].
    rewrite R. reflexivity.
  - intros R.
    assert (Has : existsb (Db.same_row (u, g)) (Db.extra_groups db)
                  = existsb (str_eqb g) (Db.get_user_extra_groups u db)).
    { destruct (existsb (str_eqb g) _) eqn:X.
      - apply existsb_str_eqb, DbFacts.extras_In in X.
        apply DbFacts.existsb_same_row. exact X.
      - destruct (existsb (Db.same_row (u, g)) _) eqn:Y; [|reflexivity].
        apply DbFacts.existsb_same_row, DbFacts.extras_In in Y.
        apply existsb_str_eqb in Y. congruence. }
    assert (Listed : In g (Db.get_user_extra_groups u
                             (snd (Db.add_extra_group u g db)))).
    { apply DbFacts.extras_In. unfold Db.add_extra_group.
      destruct (existsb (Db.same_row (u, g)) (Db.extra_groups db)) eqn:X.
      - apply DbFacts.existsb_same_row in X. exact X.
      - rewrite R. cbn [snd Db.extra_groups]. apply in_or_app.
        right; left; reflexivity. }
    split.
    { unfold Db.add_extra_group. rewrite <- Has.
      destruct (existsb _ (Db.extra_groups db)); [reflexivity|].
      rewrite R. reflexivity. }
    split; [exact Listed|]. split.
    { apply DbFacts.extras_NoDup. apply C'. }
    split.
    { cbn [fst Db.remove_extra_group]. apply DbFacts.existsb_same_row.
      apply DbFacts.extras_In. exact Listed. }
    intros I. apply DbFacts.extras_In in I.
    cbn [snd Db.remove_extra_group Db.extra_groups] in I.
    apply filter_In in I. destruct I as [_ I].
    unfold Db.same_row in I. cbn [fst snd] in I.
    rewrite Z.eqb_refl, str_eqb_refl in I. discriminate.
Qed.

(** X27. [setgroup] does not look at the extra groups: when its
    argument, in upper case, is a valid name that is already an extra
    group of the user, it becomes the main group too, and
    [get_user_all_groups] then lists that group twice. *)
Theorem main_group_may_repeat_extra :
  forall (db : Db.t) (u : Z) (args : list pystr) (g : pystr),
    args <> [] ->
    upper (join_words args) = g ->
    fst (validate_group_name g) = true ->
    In g (Db.get_user_extra_groups u db) ->
    Db.get_user_all_groups u (snd (setgroup u args db))
    = g :: Db.get_user_extra_groups u db
    /\ ~ NoDup (Db.get_user_all_groups u (snd (setgroup u args db))).
Proof.
  intros db u args g Na Eg Valid Extra.
  assert (Sg : snd (setgroup u args db) = Db.set_user_group u (Some g) db).
  { unfold setgroup. apply truthy_true in Na. rewrite Na, Eg, Valid.
    reflexivity. }
  assert (Tg : truthy g = true).
  { unfold validate_group_name in Valid.
    destruct (truthy g); [reflexivity | discriminate]. }
  assert (All : Db.get_user_all_groups u (snd (setgroup u args db))
                = g :: Db.get_user_extra_groups u db).
  { rewrite Sg. unfold Db.get_user_all_groups, Db.get_user_group.
    rewrite DbFacts.get_user_set, Z.eqb_refl, Tg. reflexivity. }
  split; [exact All|].
  rewrite All. intros N. inversion N as [|? ? X _]. exact (X Extra).
Qed.

End HandlerFacts.

(* ================================================================== *)
(** * Change monitor: snapshots that shrink *)

Section MonitorShrink.
Context {D : Digest}.

(** X28. A group that is missing from one snapshot and back in the
    next is reported when it is back, even with the lessons it had
    before: the pass without it dropped its hash. This needs the
    snapshot without it to hold some other group. *)
Theorem returning_group_is_reported :
  forall (previous : dict pystr) (without with_g : dict GroupSchedule)
         (g : pystr) (pairs : GroupSchedule),
    NoDup (keys without) ->
    without <> [] ->
    ~ In g (keys without) ->
    In (g, pairs) with_g ->
    In g (changed_groups (fst (diff_groups previous without)) with_g).
Proof.
  intros previous without with_g g pairs N Ne Absent I.
  destruct (diff_groups_map previous without N) as [E Get].
  unfold changed_groups, diff_groups at 1. apply diff_fold_changed.
  right. exists pairs. split; [exact I|]. right. split.
  - rewrite Get. apply dict_get_None_keys in Absent. rewrite Absent.
    reflexivity.
  - rewrite E. destruct without; [congruence | discriminate].
Qed.

(** X29. A snapshot without any group empties the held map, and the
    monitor is back in its first-pass state: the next pass reports no
    group, whatever the snapshot it finds and whatever was held
    before. *)
Theorem empty_snapshot_silences_next_pass :
  forall (previous : dict pystr) (gs : dict GroupSchedule),
    fst (diff_groups previous []) = []
    /\ changed_groups (fst (diff_groups previous [])) gs = [].
Proof.
  intros previous gs. split; [reflexivity|].
  change (fst (diff_groups previous [])) with (@nil (pystr * pystr)).
  destruct (changed_groups [] gs) as [|g l] eqn:E; [reflexivity|].
  exfalso. assert (I : In g (changed_groups [] gs))
    by (rewrite E; left; reflexivity).
  unfold changed_groups, diff_groups in I. apply diff_fold_changed in I.
  destruct I as [[] | [pairs [_ [[old [G _]] | [_ Ne]]]]].
  - discriminate G.
  - apply Ne; reflexivity.
Qed.

End MonitorShrink.

(* ================================================================== *)
(** * The further properties on the worked inputs *)

Lemma run_monitor_unavailable_witness :
  @run_monitor basic_unicode example_parser written_out outage
    state_after_parsed
  = state_after_parsed.
Proof.
  apply (@run_monitor_unavailable basic_unicode example_parser written_out).
  intros tick [<- | [<- | []]]; vm_compute; reflexivity.
Defined.

Lemma subscriber_attempts_all_sent_witness :
  @subscriber_attempts two_subscribers groups_altered [u "ИС-21"] 101
  = [ {| att_chat := 101; att_group := u "ИС-21"; att_ok := true |} ]
  /\ @subscriber_attempts two_subscribers groups_altered [u "ИС-21"] 102
     = [].
Proof.
  split.
  - rewrite (@subscriber_attempts_all_sent two_subscribers groups_altered
               [u "ИС-21"] 101 (fun g => eq_refl)).
    vm_compute; reflexivity.
  - rewrite (@subscriber_attempts_all_sent two_subscribers groups_altered
               [u "ИС-21"] 102 (fun g => eq_refl)).
    vm_compute; reflexivity.
Defined.

Lemma get_schedule_well_formed_witness :
  @get_schedule basic_unicode example_parser (Response page_two_blocks) None
  = Some snapshot_parsed
  /\ NoDup (keys groups_parsed)
  /\ forall e, In e [entry_maths; entry_history] ->
               @is_placeholder basic_unicode (subject e) = false.
Proof.
  assert (E : @get_schedule basic_unicode example_parser
                (Response page_two_blocks) None = Some snapshot_parsed)
    by (vm_compute; reflexivity).
  split; [exact E|].
  destruct (@get_schedule_well_formed basic_unicode example_parser
              _ _ _ E) as (d & gs & _ & G & N & Each).
  injection G as <-. split; [exact N|].
  apply (Each (u "ИС-21")). left; reflexivity.
Defined.

Lemma extra_cells_ignored_witness :
  (length (@groups_in_block basic_unicode
             {| tr_ths := [u "ИС-21"]; tr_tds := [] |})
   <= length [history_cell])%nat
  /\ @parse_rows basic_unicode
       [ {| tr_ths := [u "ИС-21"]; tr_tds := [] |};
         {| tr_ths := [u "3"]; tr_tds := [history_cell] ++ [stray_cell] |};
         inner_tr "3" ]
       after_first_block
     = groups_parsed.
Proof.
  assert (Le : (length (@groups_in_block basic_unicode
                          {| tr_ths := [u "ИС-21"]; tr_tds := [] |})
                <= length [history_cell])%nat)
    by (vm_compute; apply le_n).
  split; [exact Le|].
  rewrite (@extra_cells_ignored basic_unicode _ _ _ _ _ _ Le).
  vm_compute; reflexivity.
Defined.

Lemma header_without_content_row_witness :
  In (u "ИС-23") (@groups_in_block basic_unicode header_two_names)
  /\ dict_get (u "ИС-23")
       (@parse_rows basic_unicode [header_two_names] after_first_block)
     = Some []
  /\ dict_get (u "ИС-22")
       (@parse_rows basic_unicode [header_two_names] after_first_block)
     = Some [entry_chemistry].
Proof.
  assert (I : In (u "ИС-23")
                (@groups_in_block basic_unicode header_two_names))
    by (vm_compute; auto).
  destruct (@header_without_content_row basic_unicode header_two_names
              after_first_block (u "ИС-23") I) as [New Other].
  split; [exact I|]. split.
  - rewrite New. vm_compute; reflexivity.
  - rewrite Other; [vm_compute; reflexivity|].
    vm_compute. intros [E | [E | []]]; discriminate E.
Defined.

Lemma diff_groups_replaces_witness :
  NoDup (keys groups_without_first)
  /\ fst (@diff_groups written_out (previous_hashes state_after_parsed)
            groups_without_first)
     = [(u "ИС-22", @group_hash written_out [entry_chemistry])]
  /\ dict_get (u "ИС-21")
       (fst (@diff_groups written_out (previous_hashes state_after_parsed)
               groups_without_first))
     = None.
Proof.
  assert (N : NoDup (keys groups_without_first))
    by (apply distinct_NoDup; vm_compute; reflexivity).
  destruct (@diff_groups_replaces written_out
              (previous_hashes state_after_parsed) groups_without_first N)
    as (E & _ & Gone).
  split; [exact N|]. split.
  - rewrite E. vm_compute; reflexivity.
  - apply Gone. vm_compute. intros [E' | []]; discriminate E'.
Defined.

Lemma unchanged_snapshot_is_quiet_witness :
  NoDup (keys groups_parsed)
  /\ @changed_groups written_out
       (fst (@diff_groups written_out (previous_hashes warm_state)
               groups_parsed))
       groups_parsed
     = [].
Proof.
  assert (N : NoDup (keys groups_parsed))
    by (apply distinct_NoDup; vm_compute; reflexivity).
  split; [exact N|].
  apply (@unchanged_snapshot_is_quiet written_out _ _ N).
Defined.

Lemma monitor_schedule_quiet_pass_witness :
  @changed_groups written_out (previous_hashes state_after_parsed)
    groups_parsed = []
  /\ @monitor_schedule basic_unicode example_parser written_out
       two_subscribers (Response page_two_blocks) state_after_parsed
     = state_after_parsed.
Proof.
  assert (Q : @changed_groups written_out (previous_hashes state_after_parsed)
                groups_parsed = [])
    by (vm_compute; reflexivity).
  split; [exact Q|].
  rewrite (@monitor_schedule_quiet_pass basic_unicode example_parser
             written_out two_subscribers (Response page_two_blocks)
             state_after_parsed snapshot_parsed groups_parsed
             eq_refl eq_refl (or_introl Q)).
  vm_compute; reflexivity.
Defined.

Lemma found_teacher_has_schedule_witness :
  In (u "Иванова")
    (@search_teachers basic_unicode reversed_layout (u "иван")
       (Some snapshot_ivanov_ivanova))
  /\ exists g entries,
       dict_get g
         (@find_teacher_schedule basic_unicode (u "Иванова")
            (Some snapshot_ivanov_ivanova))
       = Some entries
       /\ exists p, In p entries /\ teacher p = u "Иванова".
Proof.
  assert (I : In (u "Иванова")
                (@search_teachers basic_unicode reversed_layout (u "иван")
                   (Some snapshot_ivanov_ivanova)))
    by (vm_compute; auto).
  split; [exact I|].
  apply (@found_teacher_has_schedule basic_unicode reversed_layout
           (u "иван") snapshot_ivanov_ivanova _ (u "Иванова") eq_refl).
  - apply distinct_NoDup; vm_compute; reflexivity.
  - exact I.
Defined.

Lemma message_parts_bounded_witness :
  Forall (fun line => len line < 6) (split_on 10 three_short_lines)
  /\ message_parts three_short_lines 6
     = [u "ab" ++ [10] ++ u "cd" ++ [10]; u "ef" ++ [10]]
  /\ Forall (fun part => part <> [] /\ len part <= 6)
       (message_parts three_short_lines 6).
Proof.
  assert (Short : Forall (fun line => len line < 6)
                    (split_on 10 three_short_lines))
    by (vm_compute; repeat constructor).
  split; [exact Short|]. split; [vm_compute; reflexivity|].
  apply Forall_forall.
  apply (message_parts_bounded three_short_lines 6).
  apply Forall_forall. exact Short.
Defined.

Lemma long_first_line_sends_empty_witness :
  5 < len long_first_line
  /\ hd_error (send_long_message long_first_line 5) = Some [].
Proof.
  assert (Over : 5 < len long_first_line) by (vm_compute; reflexivity).
  split; [exact Over|].
  destruct (long_first_line_sends_empty long_first_line 5 (u "abcdef")
              [u "gh"] Over eq_refl) as [more E].
  - vm_compute; reflexivity.
  - rewrite E. reflexivity.
Defined.


Lemma subscription_round_trip_witness :
  Db.consistent tables_of_101
  /\ Db.subscribe_user 102 tables_of_101 = inl Db.ForeignKeyViolation
  /\ exists db',
       Db.subscribe_user 101 tables_of_101 = inr db'
       /\ Db.is_subscribed 101 db' = true
       /\ Db.is_subscribed 101 (Db.unsubscribe_user 101 db') = false.
Proof.
  assert (C : Db.consistent tables_of_101)
    by (apply (@tables_ok_handle_all basic_upper), tables_ok_empty).
  split; [exact C|]. split.
  - destruct (subscription_round_trip tables_of_101 102 C) as [Refused _].
    apply Refused. vm_compute; reflexivity.
  - destruct (subscription_round_trip tables_of_101 101 C) as [_ Done].
    destruct Done as (db' & S & Is & _ & Un & _); [vm_compute; reflexivity|].
    exists db'. split; [exact S|]. split; [exact Is | exact Un].
Defined.

Lemma extra_group_round_trip_witness :
  Db.consistent tables_of_101
  /\ Db.add_extra_group 102 (u "ИС-23") tables_of_101
     = (false, tables_of_101)
  /\ fst (Db.add_extra_group 101 (u "ИС-23") tables_of_101) = true
  /\ fst (Db.add_extra_group 101 (u "ИС-22") tables_of_101) = false
  /\ In (u "ИС-23")
       (Db.get_user_extra_groups 101
          (snd (Db.add_extra_group 101 (u "ИС-23") tables_of_101))).
Proof.
  assert (C : Db.consistent tables_of_101)
    by (apply (@tables_ok_handle_all basic_upper), tables_ok_empty).
  split; [exact C|]. split.
  - destruct (extra_group_round_trip tables_of_101 102 (u "ИС-23") C)
      as [Refused _].
    apply Refused. vm_compute; reflexivity.
  - destruct (extra_group_round_trip tables_of_101 101 (u "ИС-23") C)
      as [_ New].
    destruct New as (Added & Listed & _); [vm_compute; reflexivity|].
    destruct (extra_group_round_trip tables_of_101 101 (u "ИС-22") C)
      as [_ Old].
    destruct Old as (Again & _); [vm_compute; reflexivity|].
    split; [rewrite Added; vm_compute; reflexivity|].
    split; [rewrite Again; vm_compute; reflexivity | exact Listed].
Defined.

Lemma main_group_may_repeat_extra_witness :
  In (u "ИС-22") (Db.get_user_extra_groups 101 tables_of_101)
  /\ Db.get_user_all_groups 101
       (snd (@setgroup basic_upper 101 [u "ис-22"] tables_of_101))
     = [u "ИС-22"; u "ИС-22"].
Proof.
  assert (I : In (u "ИС-22") (Db.get_user_extra_groups 101 tables_of_101))
    by (vm_compute; auto).
  split; [exact I|].
  destruct (@main_group_may_repeat_extra basic_upper tables_of_101 101
              [u "ис-22"] (u "ИС-22")) as [E _].
  - discriminate.
  - vm_compute; reflexivity.
  - vm_compute; reflexivity.
  - exact I.
  - rewrite E. vm_compute; reflexivity.
Defined.

Lemma returning_group_is_reported_witness :
  NoDup (keys groups_without_first)
  /\ ~ In (u "ИС-21") (keys groups_without_first)
  /\ @changed_groups written_out (previous_hashes state_after_parsed)
       groups_parsed = []
  /\ In (u "ИС-21")
       (@changed_groups written_out
          (fst (@diff_groups written_out (previous_hashes state_after_parsed)
                  groups_without_first))
          groups_parsed).
Proof.
  assert (N : NoDup (keys groups_without_first))
    by (apply distinct_NoDup; vm_compute; reflexivity).
  assert (Absent : ~ In (u "ИС-21") (keys groups_without_first))
    by (vm_compute; intros [E | []]; discriminate E).
  split; [exact N|]. split; [exact Absent|].
  split; [vm_compute; reflexivity|].
  apply (@returning_group_is_reported written_out _ groups_without_first
           groups_parsed (u "ИС-21") [entry_maths; entry_history] N).
  - discriminate.
  - exact Absent.
  - left; reflexivity.
Defined.
